(** * SPI_Agri: the data-acquisition and valve-flag layer of
      [agriculture_monitoring.py]

    A shallow embedding of the five functions of the dashboard that talk to
    the outside world, and of the few lines of the page script that read the
    valve flag:

    - [get_firebase_app], [firebase_get_vanne_etat], [firebase_set_vanne_etat]
      (the remote flag store),
    - [search_address_suggestions] (the address lookup),
    - [fetch_open_meteo_data] and [process_meteo_data] (weather retrieval and
      normalisation),
    - [dashboard_vanne] (lines 489-506 of the script).

    Python values that come out of [json.loads] are terms of [json]; Python
    exceptions are terms of [exn]; a Python function is a computation in the
    monad [M], which threads the process state ([world]) and either returns a
    value or raises.  What the libraries outside the repository answer
    (requests, the file system, firebase_admin) is read from an [env] record,
    one per call, so every theorem holds whatever they answer. *)

From Stdlib Require Import String Ascii ZArith QArith Qabs List Bool Lia.
From Stdlib Require Import DecimalString DecimalNat.
Import ListNotations.
Local Open Scope string_scope.
Local Open Scope Z_scope.
Set Warnings "-register-all".

(* ================================================================== *)
(** ** Python values *)

(** What [json.loads] produces: [None], [bool], a number, [str], [list],
    [dict].  A number, [int] or finite [float], is the rational it denotes;
    the modelled code never computes with numbers, it only tests them for
    truth, converts them and passes them on.
    A [dict] is the list of its items, keys pairwise distinct. *)
Inductive json : Type :=
| JNull
| JBool (b : bool)
| JNum (q : Q)
| JStr (s : string)
| JArr (l : list json)
| JObj (items : list (string * json)).

(** The exception classes the code can meet.  All of them derive from
    [Exception]; the first five derive from
    [requests.exceptions.RequestException]. *)
Inductive exn : Type :=
| Timeout
| HTTPError (status_code : Z)
| ConnectionError
| JSONDecodeError
| RequestException
| KeyError
| ValueError
| TypeError
| AttributeError
| ImportError
| OSError
| Exception (what : string).

Definition isinstance_RequestException (e : exn) : bool :=
  match e with
  | Timeout | HTTPError _ | ConnectionError | JSONDecodeError
  | RequestException => true
  | _ => false
  end.

(** The outcome of evaluating a Python expression. *)
Inductive res (A : Type) : Type :=
| Ret (a : A)
| Exc (e : exn).
Arguments Ret {A} a.
Arguments Exc {A} e.

(** [bool(v)]. *)
Definition truthy (v : json) : bool :=
  match v with
  | JNull => false
  | JBool b => b
  | JNum q => negb (Qnum q =? 0)
  | JStr s => negb (s =? "")%string
  | JArr l => match l with [] => false | _ => true end
  | JObj items => match items with [] => false | _ => true end
  end.

Fixpoint lookup (k : string) (items : list (string * json)) : option json :=
  match items with
  | [] => None
  | (k', v) :: rest => if (k =? k')%string then Some v else lookup k rest
  end.

(** [d.get(k, default)]: only a [dict] has the method. *)
Definition dict_get (d : json) (k : string) (default : json) : res json :=
  match d with
  | JObj items =>
      Ret (match lookup k items with Some v => v | None => default end)
  | _ => Exc AttributeError
  end.

(** [d[k]] for a string [k]. *)
Definition subscript (d : json) (k : string) : res json :=
  match d with
  | JObj items =>
      match lookup k items with Some v => Ret v | None => Exc KeyError end
  | _ => Exc TypeError
  end.

Fixpoint is_substring (needle hay : string) : bool :=
  prefix needle hay ||
  match hay with
  | EmptyString => false
  | String _ rest => is_substring needle rest
  end.

Definition is_str (k : string) (v : json) : bool :=
  match v with JStr s => (s =? k)%string | _ => false end.

(** [k in v] for a string [k]: key of a dict, element of a list, substring
    of a string; [TypeError] on anything else. *)
Definition py_in (k : string) (v : json) : res bool :=
  match v with
  | JObj items => Ret (match lookup k items with Some _ => true | None => false end)
  | JArr l => Ret (existsb (is_str k) l)
  | JStr s => Ret (is_substring k s)
  | _ => Exc TypeError
  end.

(** A Python [str] is a sequence of characters (code points); it is held
    here as its UTF-8 encoding, in which every character is one leading byte
    followed by the bytes of the form [10xxxxxx] that continue it.  [len],
    slicing and iteration go by characters, not by bytes. *)
Definition is_continuation (c : ascii) : bool :=
  match c with Ascii _ _ _ _ _ _ b6 b7 => b7 && negb b6 end.

(** [len(s)] for a [str]. *)
Fixpoint str_len (s : string) : nat :=
  match s with
  | EmptyString => 0%nat
  | String c rest =>
      if is_continuation c then str_len rest else S (str_len rest)
  end.

(** [s[:n]] for a [str] and [n >= 0]: its first [n] characters. *)
Fixpoint str_firstn (n : nat) (s : string) : string :=
  match s with
  | EmptyString => EmptyString
  | String c rest =>
      if is_continuation c then String c (str_firstn n rest)
      else
        match n with
        | O => EmptyString
        | S n' => String c (str_firstn n' rest)
        end
  end.

(** The characters of a [str], each with the bytes that continue it; the
    first component holds continuation bytes that no leading byte precedes. *)
Fixpoint split_chars (s : string) : string * list string :=
  match s with
  | EmptyString => (EmptyString, [])
  | String c rest =>
      let (pending, cs) := split_chars rest in
      if is_continuation c then (String c pending, cs)
      else (EmptyString, String c pending :: cs)
  end.

Definition str_chars (s : string) : list string :=
  let (pending, cs) := split_chars s in
  match pending with EmptyString => cs | _ => pending :: cs end.

(** [len(v)]. *)
Definition py_len (v : json) : res Z :=
  match v with
  | JObj items => Ret (Z.of_nat (List.length items))
  | JArr l => Ret (Z.of_nat (List.length l))
  | JStr s => Ret (Z.of_nat (str_len s))
  | _ => Exc TypeError
  end.

Definition chars (s : string) : list json := map JStr (str_chars s).

(** What [for x in v] enumerates: the elements of a list, the keys of a dict,
    the characters of a string. *)
Definition py_iter (v : json) : res (list json) :=
  match v with
  | JArr l => Ret l
  | JObj items => Ret (map (fun kv => JStr (fst kv)) items)
  | JStr s => Ret (chars s)
  | _ => Exc TypeError
  end.

(* ================================================================== *)
(** ** The process state and what is observed of a run *)

(** A firebase_admin [App] object, by identity. *)
Definition app := nat.

(** The text kept in [_firebase_error]. *)
Inductive firebase_error : Type :=
| Fichier_introuvable            (* f"Fichier introuvable : {path}" *)
| Str_exn (e : exn).             (* str(e) *)

(** The texts passed to [st.error] and [st.warning]. *)
Inductive message : Type :=
| Format_inattendu               (* "Format de données inattendu de l'API" *)
| Parametres_indisponibles       (* "Certains paramètres ne sont pas disponibles ..." *)
| Timeout_open_meteo             (* "Timeout : L'API Open-Meteo ne répond pas ..." *)
| Requete_invalide               (* "Requête invalide. Vérifiez les coordonnées ..." *)
| Erreur_HTTP (status_code : Z)  (* f"Erreur HTTP {status_code} : {e}" *)
| Erreur_connexion (e : exn)     (* f"Erreur de connexion à l'API : {e}" *)
| Erreur_inattendue (e : exn)    (* f"Erreur inattendue : {e}" *)
| Donnees_incompletes            (* "Données incomplètes reçues de l'API" *)
| Aucune_donnee_valide           (* "Aucune donnée valide après traitement" *)
| Erreur_traitement (e : exn)    (* f"Erreur lors du traitement des données : {e}" *)
| Firebase_non_configure         (* "Firebase non configuré ..." *)
| Detail (err : option firebase_error). (* f"Détail : {err_msg}" *)

Record request : Type := {
  url : string;
  params : list (string * json);
  headers : list (string * string);
  timeout : Z
}.

(** What a run does that can be seen from outside: messages put on the page
    and calls into the libraries. *)
Inductive event : Type :=
| St_error (m : message)
| St_warning (m : message)
| Call_requests_get (r : request)
| Call_get_app
| Call_Certificate
| Call_initialize_app
| Call_db_reference (path : string)
| Call_ref_get (path : string)
| Call_ref_update (path : string) (value : json).

(** The state of the Python process.  [_firebase_app] and [_firebase_error]
    are the module globals of lines 27-28; [firebase_admin_apps] is the
    default entry of [firebase_admin._apps]; [vanne_etat] is
    [st.session_state.vanne_etat].  [apps_created] counts the calls of
    [initialize_app] that succeeded and [trace] lists the events, newest
    first; the code reads neither. *)
Record world : Type := {
  _firebase_app : option app;
  _firebase_error : option firebase_error;
  firebase_admin_apps : option app;
  vanne_etat : option json;
  apps_created : nat;
  trace : list event
}.

Definition set_firebase_app (a : option app) (w : world) : world :=
  {| _firebase_app := a; _firebase_error := _firebase_error w;
     firebase_admin_apps := firebase_admin_apps w; vanne_etat := vanne_etat w;
     apps_created := apps_created w; trace := trace w |}.

Definition set_firebase_error (e : option firebase_error) (w : world) : world :=
  {| _firebase_app := _firebase_app w; _firebase_error := e;
     firebase_admin_apps := firebase_admin_apps w; vanne_etat := vanne_etat w;
     apps_created := apps_created w; trace := trace w |}.

Definition set_vanne_etat (v : option json) (w : world) : world :=
  {| _firebase_app := _firebase_app w; _firebase_error := _firebase_error w;
     firebase_admin_apps := firebase_admin_apps w; vanne_etat := v;
     apps_created := apps_created w; trace := trace w |}.

(** A successful [initialize_app]: a new object, entered in [_apps]. *)
Definition register_app (w : world) : world :=
  {| _firebase_app := _firebase_app w; _firebase_error := _firebase_error w;
     firebase_admin_apps := Some (apps_created w); vanne_etat := vanne_etat w;
     apps_created := S (apps_created w); trace := trace w |}.

(** [log evs w]: the events [evs] (newest first) happened after [w]. *)
Definition log (evs : list event) (w : world) : world :=
  {| _firebase_app := _firebase_app w; _firebase_error := _firebase_error w;
     firebase_admin_apps := firebase_admin_apps w; vanne_etat := vanne_etat w;
     apps_created := apps_created w; trace := evs ++ trace w |}.

(* ================================================================== *)
(** ** Computations *)

Definition M (A : Type) : Type := world -> res A * world.

Definition ret {A} (a : A) : M A := fun w => (Ret a, w).

Definition raise {A} (e : exn) : M A := fun w => (Exc e, w).

Definition lift {A} (r : res A) : M A := fun w => (r, w).

Definition bind {A B} (m : M A) (k : A -> M B) : M B :=
  fun w =>
    match m w with
    | (Ret a, w') => k a w'
    | (Exc e, w') => (Exc e, w')
    end.

(** [try: body / except ...: handler]; every modelled exception derives
    from [Exception], the handler chooses the clause. *)
Definition try_except {A} (body : M A) (handler : exn -> M A) : M A :=
  fun w =>
    match body w with
    | (Ret a, w') => (Ret a, w')
    | (Exc e, w') => handler e w'
    end.

Definition emit (ev : event) : M unit := fun w => (Ret tt, log [ev] w).

Definition modify (f : world -> world) : M unit := fun w => (Ret tt, f w).

Definition read {A} (f : world -> A) : M A := fun w => (Ret (f w), w).

Notation "x <- m ;; k" := (bind m (fun x => k))
  (at level 61, m at next level, right associativity).
Notation "m ;; k" := (bind m (fun _ => k))
  (at level 61, right associativity).

(** The same for expressions that touch no state. *)
Definition rbind {A B} (r : res A) (k : A -> res B) : res B :=
  match r with Ret a => k a | Exc e => Exc e end.

(** [raise e] when the library reports [Some e]. *)
Definition or_raise (o : option exn) : M unit :=
  match o with None => ret tt | Some e => raise e end.

(* ================================================================== *)
(** ** pandas: the frame of [process_meteo_data] *)

(** A row of the frame; a cell is [None] when pandas holds NaT, NaN or
    [None] there.  [datetime] counts from the epoch in the unit of the
    timestamp parser. *)
Record row : Type := {
  datetime : option Z;
  humidity_air : option Q;
  humidity_soil : option Q
}.

Definition DataFrame := list row.

(** [df.dropna()] keeps the rows without a null cell, in order. *)
Definition notna (r : row) : bool :=
  match datetime r, humidity_air r, humidity_soil r with
  | Some _, Some _, Some _ => true
  | _, _, _ => false
  end.

Definition dropna (df : DataFrame) : DataFrame := filter notna df.

(** [df.empty]. *)
Definition empty (df : DataFrame) : bool :=
  match df with [] => true | _ => false end.

Fixpoint sequence {A} (l : list (option A)) : option (list A) :=
  match l with
  | [] => Some []
  | None :: _ => None
  | Some a :: rest =>
      match sequence rest with Some r => Some (a :: r) | None => None end
  end.

(** The columns pandas is modelled on: a list of timestamps-or-null and
    lists of numbers-or-null. *)
Definition time_cell (v : json) : option (option string) :=
  match v with JNull => Some None | JStr s => Some (Some s) | _ => None end.

Definition num_cell (v : json) : option (option Q) :=
  match v with JNull => Some None | JNum q => Some (Some q) | _ => None end.

Definition time_column (v : json) : option (list (option string)) :=
  match v with JArr l => sequence (map time_cell l) | _ => None end.

Definition num_column (v : json) : option (list (option Q)) :=
  match v with JArr l => sequence (map num_cell l) | _ => None end.

Fixpoint zip_rows (d : list (option Z)) (a s : list (option Q)) : DataFrame :=
  match d, a, s with
  | dt :: d', ha :: a', hs :: s' =>
      {| datetime := dt; humidity_air := ha; humidity_soil := hs |}
      :: zip_rows d' a' s'
  | _, _, _ => []
  end.

Section Pandas.

(** pandas is not part of the repository.  [pd.to_datetime] reads a column
    as a whole: it fixes one format from the strings it meets and reads every
    string in it, it takes the empty string and the spellings of NaT for NaT,
    and it reads "now" and "today" from the clock.  What it makes of a string
    is therefore taken as given for the column the string stands in and for
    the moment of the call: [parse_datetime column s] is [Some (Some t)] for
    the instant read, [Some None] for NaT, and [None] when the call raises on
    the string.  What pandas does with values that are not columns of the
    shape above is taken as given too, for the moment of the call. *)
Variable parse_datetime : list (option string) -> string -> option (option Z).
Variable pandas_other : json -> json -> json -> res DataFrame.

(** The cells of [times] as they are read within [column]: a null becomes
    NaT, and one string that cannot be read fails the call. *)
Fixpoint to_datetime_in (column times : list (option string))
  : res (list (option Z)) :=
  match times with
  | [] => Ret []
  | None :: rest =>
      rbind (to_datetime_in column rest) (fun r => Ret (None :: r))
  | Some s :: rest =>
      match parse_datetime column s with
      | None => Exc ValueError
      | Some t => rbind (to_datetime_in column rest) (fun r => Ret (t :: r))
      end
  end.

(** [pd.to_datetime(times)] on a column. *)
Definition to_datetime (times : list (option string)) : res (list (option Z)) :=
  to_datetime_in times times.

(** [pd.DataFrame({"datetime": pd.to_datetime(times), "humidity_air": ...,
    "humidity_soil": ...})]: the timestamps are converted first, then the
    constructor refuses columns of different lengths. *)
Definition pd_DataFrame (times humidity_air humidity_soil : json)
  : res DataFrame :=
  match time_column times, num_column humidity_air, num_column humidity_soil with
  | Some t, Some a, Some s =>
      rbind (to_datetime t) (fun d =>
        if (length d =? length a)%nat && (length d =? length s)%nat
        then Ret (zip_rows d a s)
        else Exc ValueError)
  | _, _, _ => pandas_other times humidity_air humidity_soil
  end.

(** Lines 444-463: the three arrays once they are read from the record. *)
Definition process_arrays (times humidity_air humidity_soil : json)
  : M (option DataFrame) :=
  if negb (truthy times) || negb (truthy humidity_air)
     || negb (truthy humidity_soil)
  then emit (St_warning Donnees_incompletes) ;; ret None
  else
    df <- lift (pd_DataFrame times humidity_air humidity_soil) ;;
    let df := dropna df in
    if empty df
    then emit (St_warning Aucune_donnee_valide) ;; ret None
    else ret (Some df).

(** The handler of lines 465-467. *)
Definition process_error (e : exn) : M (option DataFrame) :=
  emit (St_error (Erreur_traitement e)) ;; ret None.

(** Lines 427-467. *)
Definition process_meteo_data (api_data : json) : M (option DataFrame) :=
  try_except
    (match api_data with
     | JNull => ret None
     | _ =>
         hourly_data <- lift (dict_get api_data "hourly" (JObj [])) ;;
         times <- lift (dict_get hourly_data "time" (JArr [])) ;;
         humidity_air <-
           lift (dict_get hourly_data "relative_humidity_2m" (JArr [])) ;;
         humidity_soil <-
           lift (dict_get hourly_data "soil_moisture_0_to_1cm" (JArr [])) ;;
         process_arrays times humidity_air humidity_soil
     end)
    process_error.

End Pandas.

(* ================================================================== *)
(** ** The libraries outside the repository *)

Record response : Type := {
  status : Z;                      (* response.status_code *)
  body : res json                  (* what response.json() does *)
}.

(** [response.raise_for_status()]. *)
Definition raise_for_status (r : response) : res unit :=
  if (400 <=? status r) && (status r <? 600)
  then Exc (HTTPError (status r))
  else Ret tt.

(** What the outside answers during one call of a function of the script.
    [None] in an [option exn] means the library call succeeds. *)
Record env : Type := {
  requests_get : request -> res response;
  isfile_credentials : bool;       (* os.path.isfile(FIREBASE_CREDENTIALS_PATH) *)
  import_firebase_admin : option exn;
  Certificate : option exn;        (* credentials.Certificate(path) *)
  initialize_app : option exn;     (* firebase_admin.initialize_app(cred, ...) *)
  import_db : option exn;          (* from firebase_admin import db *)
  db_reference : string -> option exn;
  ref_get : string -> res json;
  ref_update : string -> json -> option exn
}.

(* ================================================================== *)
(** ** The remote flag store (lines 26-79) *)

(** Lines 31-52. *)
Definition get_firebase_app (E : env) : M (option app) :=
  cached <- read _firebase_app ;;
  match cached with
  | Some a => ret (Some a)
  | None =>
      modify (set_firebase_error None) ;;
      if negb (isfile_credentials E)
      then modify (set_firebase_error (Some Fichier_introuvable)) ;; ret None
      else
        try_except
          (or_raise (import_firebase_admin E) ;;
           apps <- read firebase_admin_apps ;;
           match apps with
           | Some a =>
               emit Call_get_app ;;
               modify (set_firebase_app (Some a)) ;;
               ret (Some a)
           | None =>
               emit Call_Certificate ;;
               or_raise (Certificate E) ;;
               emit Call_initialize_app ;;
               or_raise (initialize_app E) ;;
               a <- read apps_created ;;
               modify register_app ;;
               modify (set_firebase_app (Some a)) ;;
               ret (Some a)
           end)
          (fun e => modify (set_firebase_error (Some (Str_exn e))) ;; ret None)
  end.

(** Lines 55-65.  Python's [None] is [JNull]. *)
Definition firebase_get_vanne_etat (E : env) : M json :=
  try_except
    (a <- get_firebase_app E ;;
     match a with
     | None => ret JNull
     | Some _ =>
         or_raise (import_db E) ;;
         emit (Call_db_reference "/vanne/etat") ;;
         or_raise (db_reference E "/vanne/etat") ;;
         emit (Call_ref_get "/vanne/etat") ;;
         lift (ref_get E "/vanne/etat")
     end)
    (fun _ => ret JNull).

(** Lines 68-79. *)
Definition firebase_set_vanne_etat (E : env) (etat : bool) : M bool :=
  try_except
    (a <- get_firebase_app E ;;
     match a with
     | None => ret false
     | Some _ =>
         or_raise (import_db E) ;;
         emit (Call_db_reference "/vanne") ;;
         or_raise (db_reference E "/vanne") ;;
         emit (Call_ref_update "/vanne" (JObj [("etat", JBool etat)])) ;;
         or_raise (ref_update E "/vanne" (JObj [("etat", JBool etat)])) ;;
         ret true
     end)
    (fun _ => ret false).

(** Lines 489-506 of the page script: the valve block up to the toggle.
    The result is [etat_actuel], or [None] when the block is not drawn.
    Lines 503-506 assign [st.session_state.vanne_etat] when it is missing and
    then in any case: one assignment here.  [Detail None] stands for the
    default text of line 491. *)
Definition dashboard_vanne (E : env) : M (option json) :=
  a <- get_firebase_app E ;;
  match a with
  | None =>
      err <- read _firebase_error ;;
      emit (St_warning Firebase_non_configure) ;;
      emit (St_error (Detail err)) ;;
      ret None
  | Some _ =>
      etat_actuel <- firebase_get_vanne_etat E ;;
      let etat_actuel :=
        match etat_actuel with JNull => JBool false | v => v end in
      modify (set_vanne_etat (Some etat_actuel)) ;;
      ret (Some etat_actuel)
  end.

(** Streamlit runs the script again on every interaction: lines 27-28 are
    executed again, while the imported firebase_admin module keeps its
    registry. *)
Definition rerun (w : world) : world :=
  set_firebase_error None (set_firebase_app None w).

(** The process as it starts. *)
Definition process_start : world :=
  {| _firebase_app := None; _firebase_error := None;
     firebase_admin_apps := None; vanne_etat := None;
     apps_created := 0%nat; trace := [] |}.

(** What can happen to the store during the life of the process: a call of
    [get_firebase_app], a read or a write of the flag, a drawing of the valve
    block, each under whatever the outside answers then, or a rerun. *)
Inductive step : Type :=
| Do_get_firebase_app (E : env)
| Do_get_vanne_etat (E : env)
| Do_set_vanne_etat (E : env) (etat : bool)
| Do_dashboard_vanne (E : env)
| Do_rerun.

Definition do_step (s : step) (w : world) : world :=
  match s with
  | Do_get_firebase_app E => snd (get_firebase_app E w)
  | Do_get_vanne_etat E => snd (firebase_get_vanne_etat E w)
  | Do_set_vanne_etat E etat => snd (firebase_set_vanne_etat E etat w)
  | Do_dashboard_vanne E => snd (dashboard_vanne E w)
  | Do_rerun => rerun w
  end.

Definition run (steps : list step) (w : world) : world :=
  fold_left (fun w s => do_step s w) steps w.

(* ================================================================== *)
(** ** Address lookup (lines 96-146) *)

(** One entry of the list [search_address_suggestions] returns. *)
Record suggestion : Type := {
  display_name : json;
  lat : Q;
  lon : Q
}.

(** The least magnitude that does not round to a double: halfway between
    the largest double, [2^1024 - 2^971], and [2^1024]. *)
Definition double_overflow : Z := Z.shiftl 1 1024 - Z.shiftl 1 970.

Section Geocoding.

(** [float(s)] on a string is Python's; it is taken as given: [Some q] for
    the number read, [None] for [ValueError]. *)
Variable float_of_string : string -> option Q.

(** [float(v)].  A number that [json.loads] read as a [float] is a double
    already; one it read as an [int] has any size, and [float] raises
    [OverflowError] when it rounds to [2^1024] or beyond. *)
Definition py_float (v : json) : res Q :=
  match v with
  | JStr s =>
      match float_of_string s with Some q => Ret q | None => Exc ValueError end
  | JNum q =>
      if Qle_bool (inject_Z double_overflow) (Qabs q)
      then Exc (Exception "OverflowError")
      else Ret q
  | JBool b => Ret (if b then 1%Q else 0%Q)
  | _ => Exc TypeError
  end.

(** The dict built for one [result] (lines 131-135), left to right. *)
Definition suggestion_of (result : json) : res suggestion :=
  rbind (dict_get result "display_name" (JStr "")) (fun name =>
  rbind (subscript result "lat") (fun la =>
  rbind (py_float la) (fun la =>
  rbind (subscript result "lon") (fun lo =>
  rbind (py_float lo) (fun lo =>
  Ret {| display_name := name; lat := la; lon := lo |}))))).

(** The loop of lines 130-135. *)
Fixpoint append_suggestions (results : list json) (suggestions : list suggestion)
  : res (list suggestion) :=
  match results with
  | [] => Ret suggestions
  | result :: rest =>
      rbind (suggestion_of result) (fun s =>
        append_suggestions rest (suggestions ++ [s]))
  end.

(** The arguments of [requests.get] at line 123. *)
Definition nominatim_request (query : string) (limit : Z) : request :=
  {| url := "https://nominatim.openstreetmap.org/search";
     params := [("q", JStr query); ("format", JStr "json");
                ("limit", JNum (inject_Z limit));
                ("addressdetails", JNum 1)];
     headers := [("User-Agent", "Agriculture-Monitoring-App")];
     timeout := 10 |}.

(** Lines 108-146.  [len(query)] is the number of characters of the
    string; the handler goes through the four [except] clauses in order, and
    each returns the empty list. *)
Definition search_address_suggestions (E : env) (query : string) (limit : Z)
  : M (list suggestion) :=
  if (query =? "")%string || (Z.of_nat (str_len query) <? 2)
  then ret []
  else
    try_except
      (emit (Call_requests_get (nominatim_request query limit)) ;;
       response <- lift (requests_get E (nominatim_request query limit)) ;;
       lift (raise_for_status response) ;;
       data <- lift (body response) ;;
       nonempty <-
         (if truthy data
          then n <- lift (py_len data) ;; ret (0 <? n)
          else ret false) ;;
       if nonempty : bool
       then results <- lift (py_iter data) ;;
            lift (append_suggestions results [])
       else ret [])
      (fun e =>
         match e with
         | Timeout => ret []
         | _ =>
             if isinstance_RequestException e then ret []
             else match e with
                  | KeyError | ValueError => ret []
                  | _ => ret []
                  end
         end).

End Geocoding.

(* ================================================================== *)
(** ** Weather retrieval (lines 350-424) *)

Record date : Type := { year : Z; month : Z; day : Z }.

Definition digit (n : Z) : ascii := ascii_of_nat (48 + Z.to_nat (n mod 10)).

Definition pad2 (n : Z) : string :=
  String (digit (n / 10)) (String (digit n) EmptyString).

Definition pad4 (n : Z) : string :=
  String (digit (n / 1000)) (String (digit (n / 100)) (pad2 n)).

(** [d.strftime("%Y-%m-%d")]. *)
Definition strftime_Ymd (d : date) : string :=
  pad4 (year d) ++ "-" ++ pad2 (month d) ++ "-" ++ pad2 (day d).

(** The arguments of [requests.get] at line 392. *)
Definition open_meteo_request (la lo : Q) (start_date end_date : date) : request :=
  {| url := "https://api.open-meteo.com/v1/forecast";
     params := [("latitude", JNum la); ("longitude", JNum lo);
                ("hourly", JStr "relative_humidity_2m,soil_moisture_0_to_1cm");
                ("start_date", JStr (strftime_Ymd start_date));
                ("end_date", JStr (strftime_Ymd end_date));
                ("timezone", JStr "Europe/Paris")];
     headers := [];
     timeout := 10 |}.

(** Lines 368-424.  [today] and [days_diff] (lines 372-373) are computed and
    never used; they are left out. *)
Definition fetch_open_meteo_data (E : env) (la lo : Q) (start_date end_date : date)
  : M json :=
  try_except
    (emit (Call_requests_get (open_meteo_request la lo start_date end_date)) ;;
     response <-
       lift (requests_get E (open_meteo_request la lo start_date end_date)) ;;
     lift (raise_for_status response) ;;
     data <- lift (body response) ;;
     present <- lift (py_in "hourly" data) ;;
     if negb present
     then emit (St_error Format_inattendu) ;; ret JNull
     else
       hourly <- lift (dict_get data "hourly" (JObj [])) ;;
       air <- lift (dict_get hourly "relative_humidity_2m" JNull) ;;
       if negb (truthy air)
       then emit (St_warning Parametres_indisponibles) ;; ret JNull
       else
         soil <- lift (dict_get hourly "soil_moisture_0_to_1cm" JNull) ;;
         if negb (truthy soil)
         then emit (St_warning Parametres_indisponibles) ;; ret JNull
         else ret data)
    (fun e =>
       match e with
       | Timeout => emit (St_error Timeout_open_meteo) ;; ret JNull
       | HTTPError code =>
           (if code =? 400
            then emit (St_error Requete_invalide)
            else emit (St_error (Erreur_HTTP code))) ;;
           ret JNull
       | _ =>
           if isinstance_RequestException e
           then emit (St_error (Erreur_connexion e)) ;; ret JNull
           else emit (St_error (Erreur_inattendue e)) ;; ret JNull
       end).

(* ================================================================== *)
(** ** Two readers to run the model on *)

(** The parsers of pandas and Python are parameters above.  To evaluate the
    model on concrete responses they are instantiated with readers of the
    formats the two services send: Open-Meteo's time [YYYY-MM-DDTHH:MM],
    read as minutes since 1970-01-01T00:00, and Nominatim's plain decimals. *)

Definition digit_value (c : ascii) : option Z :=
  let n := Z.of_nat (nat_of_ascii c) in
  if (48 <=? n) && (n <=? 57) then Some (n - 48) else None.

Fixpoint digits_value (s : string) (acc : Z) : option Z :=
  match s with
  | EmptyString => Some acc
  | String c rest =>
      match digit_value c with
      | Some d => digits_value rest (10 * acc + d)
      | None => None
      end
  end.

Definition number (s : string) : option Z :=
  match s with EmptyString => None | _ => digits_value s 0 end.

Definition is_leap (y : Z) : bool :=
  ((y mod 4 =? 0) && negb (y mod 100 =? 0)) || (y mod 400 =? 0).

Definition days_in_month (y m : Z) : Z :=
  if m =? 2 then (if is_leap y then 29 else 28)
  else if (m =? 4) || (m =? 6) || (m =? 9) || (m =? 11) then 30
  else 31.

(** Days from 1970-01-01 to the given day of the Gregorian calendar. *)
Definition days_from_civil (y m d : Z) : Z :=
  let y' := if m <=? 2 then y - 1 else y in
  let era := y' / 400 in
  let yoe := y' - era * 400 in
  let mp := (m + 9) mod 12 in
  let doy := (153 * mp + 2) / 5 + d - 1 in
  let doe := yoe * 365 + yoe / 4 - yoe / 100 + doy in
  era * 146097 + doe - 719468.

Definition char_at (n : nat) (s : string) (c : ascii) : bool :=
  match get n s with Some c' => Ascii.eqb c c' | None => false end.

Definition iso_minutes (s : string) : option Z :=
  if (String.length s =? 16)%nat && char_at 4 s "-" && char_at 7 s "-"
     && char_at 10 s "T" && char_at 13 s ":"
  then
    match number (substring 0 4 s), number (substring 5 2 s),
          number (substring 8 2 s), number (substring 11 2 s),
          number (substring 14 2 s) with
    | Some y, Some m, Some d, Some h, Some mi =>
        if (1 <=? m) && (m <=? 12) && (1 <=? d) && (d <=? days_in_month y m)
           && (h <? 24) && (mi <? 60)
        then Some ((days_from_civil y m d * 24 + h) * 60 + mi)
        else None
    | _, _, _, _, _ => None
    end
  else None.

Fixpoint split_at_dot (s : string) : string * option string :=
  match s with
  | EmptyString => (EmptyString, None)
  | String c rest =>
      if Ascii.eqb c "." then (EmptyString, Some rest)
      else let (i, f) := split_at_dot rest in (String c i, f)
  end.

Definition unsigned_decimal (s : string) : option Q :=
  match split_at_dot s with
  | (i, None) =>
      match number i with Some a => Some (inject_Z a) | None => None end
  | (i, Some f) =>
      match number i, number f with
      | Some a, Some b =>
          let scale := Pos.pow 10 (Pos.of_nat (String.length f)) in
          Some (Qmake (a * Z.pos scale + b) scale)
      | _, _ => None
      end
  end.

Definition decimal (s : string) : option Q :=
  match s with
  | String "-" rest =>
      match unsigned_decimal rest with Some q => Some (Qopp q) | None => None end
  | _ => unsigned_decimal s
  end.

(** pandas at the moment [now], on the timestamps Open-Meteo sends: the
    empty string is NaT, "now" is the reading of the clock, every other
    string is read in the one format or refused. *)
Definition reader_at (now : Z) (column : list (option string)) (s : string)
  : option (option Z) :=
  if (s =? "")%string then Some None
  else if (s =? "now")%string then Some (Some now)
  else match iso_minutes s with Some t => Some (Some t) | None => None end.

(** pandas on values outside the modelled columns, for the runs below (none
    of them reaches it). *)
Definition refuse (times humidity_air humidity_soil : json) : res DataFrame :=
  Exc TypeError.

(* ================================================================== *)
(** ** The page script around the functions *)

(** The texts the script and [geocode_address] put on the page. *)
Inductive notice : Type :=
| Timeout_adresse                     (* "Timeout lors de la recherche d'adresse" *)
| Erreur_connexion_adresse (e : exn)  (* f"Erreur de connexion : {e}" *)
| Format_reponse_inattendu            (* "Format de réponse inattendu" *)
| Erreur_inattendue_adresse (e : exn) (* f"Erreur inattendue : {e}" *)
| Localisation_selectionnee (name : json) (* f"Localisation sélectionnée : {name}..." *)
| Localisation_trouvee (name : json)  (* f"Localisation trouvée : {name}..." *)
| Adresse_non_trouvee                 (* "Adresse non trouvée. Vérifiez l'orthographe." *)
| Date_debut_anterieure               (* "La date de début doit être antérieure ..." *)
| Etat_envoye (etat : bool)           (* "État envoyé à Firebase : ON" or "... OFF" *)
| Ecriture_impossible                 (* "Impossible d'écrire dans Firebase." *)
| Etat_synchronise (on : bool)        (* "État actuel : ON" or "... OFF" *)
| Chargement_impossible.              (* "Impossible de charger les données. ..." *)

(** Where a text goes: [st.sidebar.error], [st.sidebar.success],
    [st.sidebar.warning], [st.success], [st.error], [st.info]. *)
Inductive ui_event : Type :=
| Sidebar_error (n : notice)
| Sidebar_success (n : notice)
| Sidebar_warning (n : notice)
| Page_success (n : notice)
| Page_error (n : notice)
| Page_info (n : notice).

(** The state of a run of the script: the process state of the functions
    above, the entries [latitude], [longitude], [address_query] and
    [address_suggestions] of [st.session_state], and what the script itself
    has shown, newest first. *)
Record page : Type := {
  backend : world;
  latitude : Q;
  longitude : Q;
  address_query : string;
  address_suggestions : list suggestion;
  shown : list ui_event
}.

Definition set_backend (w : world) (p : page) : page :=
  {| backend := w; latitude := latitude p; longitude := longitude p;
     address_query := address_query p;
     address_suggestions := address_suggestions p; shown := shown p |}.

Definition set_coordinates (la lo : Q) (p : page) : page :=
  {| backend := backend p; latitude := la; longitude := lo;
     address_query := address_query p;
     address_suggestions := address_suggestions p; shown := shown p |}.

Definition set_address_query (q : string) (p : page) : page :=
  {| backend := backend p; latitude := latitude p; longitude := longitude p;
     address_query := q;
     address_suggestions := address_suggestions p; shown := shown p |}.

Definition set_address_suggestions (l : list suggestion) (p : page) : page :=
  {| backend := backend p; latitude := latitude p; longitude := longitude p;
     address_query := address_query p;
     address_suggestions := l; shown := shown p |}.

Definition show_event (ev : ui_event) (p : page) : page :=
  {| backend := backend p; latitude := latitude p; longitude := longitude p;
     address_query := address_query p;
     address_suggestions := address_suggestions p; shown := ev :: shown p |}.

(** Computations of the script. *)
Definition P (A : Type) : Type := page -> res A * page.

Definition pret {A} (a : A) : P A := fun p => (Ret a, p).

Definition pbind {A B} (m : P A) (k : A -> P B) : P B :=
  fun p =>
    match m p with
    | (Ret a, p') => k a p'
    | (Exc e, p') => (Exc e, p')
    end.

Definition ptry_except {A} (body : P A) (handler : exn -> P A) : P A :=
  fun p =>
    match body p with
    | (Ret a, p') => (Ret a, p')
    | (Exc e, p') => handler e p'
    end.

(** A function of the sections above, called from the script. *)
Definition call {A} (m : M A) : P A :=
  fun p => let (r, w) := m (backend p) in (r, set_backend w p).

Definition plift {A} (r : res A) : P A := fun p => (r, p).

Definition show (ev : ui_event) : P unit := fun p => (Ret tt, show_event ev p).

Definition pmodify (f : page -> page) : P unit := fun p => (Ret tt, f p).

Definition pread {A} (f : page -> A) : P A := fun p => (Ret (f p), p).

Declare Scope page_scope.
Delimit Scope page_scope with page.
Notation "x <- m ;; k" := (pbind m (fun x => k))
  (at level 61, m at next level, right associativity) : page_scope.
Notation "m ;; k" := (pbind m (fun _ => k))
  (at level 61, right associativity) : page_scope.

(** [v[0]], evaluated where [len(v) > 0]: the first element of a list, the
    first character of a string; a dict loaded from JSON has no key [0]. *)
Definition item0 (v : json) : res json :=
  match v with
  | JArr (x :: _) => Ret x
  | JArr [] => Exc (Exception "IndexError")
  | JStr s =>
      match str_chars s with
      | c :: _ => Ret (JStr c)
      | [] => Exc (Exception "IndexError")
      end
  | JObj _ => Exc KeyError
  | _ => Exc TypeError
  end.

(** [v[:n]]: a string and a list can be sliced, a string by characters,
    nothing else that JSON gives (on a dict, [TypeError] up to Python 3.11
    and [KeyError] after; the script catches neither). *)
Definition slice_to (n : nat) (v : json) : res json :=
  match v with
  | JStr s => Ret (JStr (str_firstn n s))
  | JArr l => Ret (JArr (firstn n l))
  | _ => Exc TypeError
  end.

(** [b != v] for a [bool] and a value read from the store: [True] equals
    [True], [1] and [1.0], [False] equals [False], [0] and [0.0]. *)
Definition bool_ne (b : bool) (v : json) : bool :=
  match v with
  | JBool b' => negb (Bool.eqb b b')
  | JNum q => negb (Qeq_bool q (if b then 1%Q else 0%Q))
  | _ => true
  end.

(** Dates compare as their (year, month, day). *)
Definition date_lt (a b : date) : bool :=
  (year a <? year b)
  || ((year a =? year b)
      && ((month a <? month b)
          || ((month a =? month b) && (day a <? day b)))).

(** What a [datetime.date] is: a day of the calendar, years 1 to 9999. *)
Definition valid_date (d : date) : bool :=
  (1 <=? year d) && (year d <=? 9999) && (1 <=? month d) && (month d <=? 12)
  && (1 <=? day d) && (day d <=? days_in_month (year d) (month d)).

(** [d - timedelta(days=1)]; there is no day before 0001-01-01. *)
Definition minus_one_day (d : date) : res date :=
  if 1 <? day d
  then Ret {| year := year d; month := month d; day := day d - 1 |}
  else if 1 <? month d
  then Ret {| year := year d; month := month d - 1;
              day := days_in_month (year d) (month d - 1) |}
  else if 1 <? year d
  then Ret {| year := year d - 1; month := 12; day := 31 |}
  else Exc (Exception "OverflowError").

(** Lines 342-344: the start of the period after the check. *)
Definition check_dates (date_start date_end : date) : P date :=
  (if negb (date_lt date_start date_end)
   then show (Sidebar_warning Date_debut_anterieure) ;;
        plift (minus_one_day date_end)
   else pret date_start)%page.

(** [df.iloc[-1]]. *)
Definition iloc_last (df : DataFrame) : res row :=
  match rev df with
  | r :: _ => Ret r
  | [] => Exc (Exception "IndexError")
  end.

(** Lines 527-548 and 675-677: the row the indicators are read from, or
    the error text when there is no frame.  The map, the charts, the table
    and the statistics are drawn from the same frame and left out. *)
Definition indicators (df : option DataFrame) : P (option row) :=
  (match df with
   | Some d =>
       if negb (empty d)
       then latest_data <- plift (iloc_last d) ;; pret (Some latest_data)
       else show (Page_error Chargement_impossible) ;; pret None
   | None => show (Page_error Chargement_impossible) ;; pret None
   end)%page.

(** Lines 508-519, after the lines of [dashboard_vanne]: [nouveau_etat] is
    what [st.toggle] returns. *)
Definition vanne_toggle (E : env) (etat_actuel : json) (nouveau_etat : bool)
  : P unit :=
  (if bool_ne nouveau_etat etat_actuel
   then
     ok <- call (firebase_set_vanne_etat E nouveau_etat) ;;
     if ok : bool
     then call (modify (set_vanne_etat (Some (JBool nouveau_etat)))) ;;
          show (Page_success (Etat_envoye nouveau_etat))
     else show (Page_error Ecriture_impossible)
   else show (Page_info (Etat_synchronise (truthy etat_actuel))))%page.

(** Lines 489-519: the whole valve block. *)
Definition vanne_block (E : env) (nouveau_etat : bool) : P unit :=
  (drawn <- call (dashboard_vanne E) ;;
   match drawn with
   | None => pret tt
   | Some etat_actuel => vanne_toggle E etat_actuel nouveau_etat
   end)%page.

Section Script.

Variable parse_datetime : list (option string) -> string -> option (option Z).
Variable pandas_other : json -> json -> json -> res DataFrame.
Variable float_of_string : string -> option Q.

(** [str] of a value that is not a string, as an f-string prints it. *)
Variable repr : json -> string.

(** Lines 479-481. *)
Definition load_data (E : env) (la lo : Q) (date_start date_end : date)
  : M (option DataFrame) :=
  api_data <- fetch_open_meteo_data E la lo date_start date_end ;;
  process_meteo_data parse_datetime pandas_other api_data.

(** The dict of lines 179-183, left to right. *)
Definition location_of (address : string) (result : json) : res suggestion :=
  rbind (subscript result "lat") (fun la =>
  rbind (py_float float_of_string la) (fun la =>
  rbind (subscript result "lon") (fun lo =>
  rbind (py_float float_of_string lo) (fun lo =>
  rbind (dict_get result "display_name" (JStr address)) (fun name =>
  Ret {| display_name := name; lat := la; lon := lo |}))))).

(** Lines 161-185: the body of the [try]. *)
Definition geocode_request (E : env) (address : string)
  : M (option suggestion) :=
  emit (Call_requests_get (nominatim_request address 1)) ;;
  response <- lift (requests_get E (nominatim_request address 1)) ;;
  lift (raise_for_status response) ;;
  data <- lift (body response) ;;
  nonempty <-
    (if truthy data
     then n <- lift (py_len data) ;; ret (0 <? n)
     else ret false) ;;
  if nonempty : bool
  then result <- lift (item0 data) ;;
       location <- lift (location_of address result) ;;
       ret (Some location)
  else ret None.

(** The four [except] clauses of lines 187-198, in order. *)
Definition geocode_error (e : exn) : notice :=
  match e with
  | Timeout => Timeout_adresse
  | _ =>
      if isinstance_RequestException e then Erreur_connexion_adresse e
      else match e with
           | KeyError | ValueError => Format_reponse_inattendu
           | _ => Erreur_inattendue_adresse e
           end
  end.

(** Lines 149-198. *)
Definition geocode_address (E : env) (address : string)
  : P (option suggestion) :=
  ptry_except
    (call (geocode_request E address))
    (fun e => show (Sidebar_error (geocode_error e)) ;; pret None)%page.

(** Lines 243-252: [address_input] is what the text field holds. *)
Definition refresh_suggestions (E : env) (address_input : string) : P unit :=
  (if negb (address_input =? "")%string
      && (2 <=? Z.of_nat (str_len address_input))
   then
     query <- pread address_query ;;
     if negb (address_input =? query)%string
     then
       suggestions <-
         call (search_address_suggestions float_of_string E address_input 10) ;;
       pmodify (set_address_suggestions suggestions) ;;
       pmodify (set_address_query address_input)
     else pret tt
   else if Z.of_nat (str_len address_input) <? 2
   then pmodify (set_address_suggestions []) ;;
        pmodify (set_address_query address_input)
   else pret tt)%page.

(** [f"{v}"]. *)
Definition format_value (v : json) : string :=
  match v with JStr s => s | _ => repr v end.

(** [str(n)] for a natural number. *)
Definition decimal_of_nat (n : nat) : string :=
  NilEmpty.string_of_uint (Nat.to_uint n).

(** Lines 256-258: the labels of the select box. *)
Fixpoint numbered (idx : nat) (suggestions : list suggestion) : list string :=
  match suggestions with
  | [] => []
  | sug :: rest =>
      (decimal_of_nat (idx + 1) ++ ". " ++ format_value (display_name sug))
      :: numbered (S idx) rest
  end.

Definition placeholder : string := "Sélectionnez une adresse dans la liste...".

Definition suggestion_options (suggestions : list suggestion) : list string :=
  placeholder :: numbered 0 suggestions.

(** [l.index(x)]. *)
Fixpoint list_index (x : string) (l : list string) : res Z :=
  match l with
  | [] => Exc ValueError
  | y :: rest =>
      if (y =? x)%string then Ret 0
      else rbind (list_index x rest) (fun i => Ret (i + 1))
  end.

Definition is_IndexError (e : exn) : bool :=
  match e with Exception what => (what =? "IndexError")%string | _ => false end.

(** Lines 268-280, for the label [selected_suggestion] the select box
    returned.  The [except (ValueError, IndexError): pass] of line 279 lets
    every other exception through. *)
Definition select_suggestion (selected_suggestion : string) : P unit :=
  (suggestions <- pread address_suggestions ;;
   let options := suggestion_options suggestions in
   if negb (selected_suggestion =? "")%string
      && negb (selected_suggestion =? placeholder)%string
   then
     ptry_except
       (selected_index <-
          plift (rbind (list_index selected_suggestion options)
                   (fun i => Ret (i - 1))) ;;
        if (0 <=? selected_index)
           && (selected_index <? Z.of_nat (length suggestions))
        then
          match nth_error suggestions (Z.to_nat selected_index) with
          | Some selected_address =>
              pmodify (set_coordinates (lat selected_address)
                         (lon selected_address)) ;;
              name <- plift (slice_to 60 (display_name selected_address)) ;;
              show (Sidebar_success (Localisation_selectionnee name))
          | None => plift (Exc (Exception "IndexError"))
          end
        else pret tt)
       (fun e =>
          match e with
          | ValueError => pret tt
          | _ => if is_IndexError e then pret tt else plift (Exc e)
          end)
   else pret tt)%page.

(** Lines 255-280: [choice] is the position the user holds the select box
    at; the box is drawn only when there are suggestions. *)
Definition suggestion_box (choice : nat) : P unit :=
  (suggestions <- pread address_suggestions ;;
   match suggestions with
   | [] => pret tt
   | _ =>
       match nth_error (suggestion_options suggestions) choice with
       | Some selected_suggestion => select_suggestion selected_suggestion
       | None => pret tt
       end
   end)%page.

(** Lines 283-292: the search button, when it is pressed. *)
Definition search_button (E : env) (address_input : string) : P unit :=
  (if negb (address_input =? "")%string
   then
     coords <- geocode_address E address_input ;;
     match coords with
     | Some c =>
         pmodify (set_coordinates (lat c) (lon c)) ;;
         name <- plift (slice_to 50 (display_name c)) ;;
         show (Sidebar_success (Localisation_trouvee name))
     | None => show (Sidebar_error Adresse_non_trouvee)
     end
   else pret tt)%page.

End Script.

(* ================================================================== *)
(** ** Vocabulary of the statements *)

(** The three parallel arrays of a raw weather record. *)
Definition hourly_arrays (api_data : json) : option (json * json * json) :=
  match api_data with
  | JObj items =>
      match lookup "hourly" items with
      | Some (JObj hourly) =>
          match lookup "time" hourly, lookup "relative_humidity_2m" hourly,
                lookup "soil_moisture_0_to_1cm" hourly with
          | Some t, Some a, Some s => Some (t, a, s)
          | _, _, _ => None
          end
      | _ => None
      end
  | _ => None
  end.

Definition is_null (v : json) : bool :=
  match v with JNull => true | _ => false end.

(** The timestamps of a frame, top to bottom. *)
Definition datetimes (df : DataFrame) : list Z :=
  flat_map (fun r => match datetime r with Some t => [t] | None => [] end) df.

Fixpoint ascending (l : list Z) : bool :=
  match l with
  | a :: (b :: _) as rest => (a <=? b) && ascending rest
  | _ => true
  end.

(** The message [process_meteo_data] leaves when it rejects columns [t], [a]
    and [s]. *)
Definition rejection {A B C} (t : list A) (a : list B) (s : list C) : event :=
  match t, a, s with
  | _ :: _, _ :: _, _ :: _ =>
      if (length t =? length a)%nat && (length t =? length s)%nat
      then St_warning Aucune_donnee_valide
      else St_error (Erreur_traitement ValueError)
  | _, _, _ => St_warning Donnees_incompletes
  end.

Definition all_null {A} (l : list (option A)) : Prop :=
  Forall (fun c => c = None) l.

(** Records to run the model on: three hourly samples out of order, a
    record with one array longer than the others, one whose timestamp is
    no date, two samples in order, and two hours of nulls. *)
Definition record_of (times air soil : list json) : json :=
  JObj [("latitude", JNum 47.5); ("longitude", JNum 2);
        ("hourly", JObj [("time", JArr times);
                         ("relative_humidity_2m", JArr air);
                         ("soil_moisture_0_to_1cm", JArr soil)])].

Definition unordered_record : json :=
  record_of
    [JStr "2024-06-01T02:00"; JStr "2024-06-01T00:00"; JStr "2024-06-01T01:00"]
    [JNum 61; JNum 64; JNum 63]
    [JNum 0.31; JNum 0.33; JNum 0.32].

Definition ragged_record : json :=
  record_of
    [JStr "2024-06-01T00:00"]
    [JNum 64; JNum 63]
    [JNum 0.33].

Definition undated_record : json :=
  record_of [JStr "hier"] [JNum 64] [JNum 0.33].

Definition ordered_record : json :=
  record_of
    [JStr "2024-06-01T00:00"; JStr "2024-06-01T01:00"]
    [JNum 64; JNum 63]
    [JNum 0.33; JNum 0.32].

Definition null_record : json :=
  record_of [JNull; JNull] [JNull; JNull] [JNull; JNull].

(** A record whose second timestamp is the empty string, and one whose
    timestamp is the word pandas reads from the clock. *)
Definition blank_record : json :=
  record_of
    [JStr "2024-06-01T00:00"; JStr ""]
    [JNum 64; JNum 63]
    [JNum 0.33; JNum 0.32].

Definition now_record : json :=
  record_of [JStr "now"] [JNum 64] [JNum 0.33].

(** Arrays that are non-empty, of one length and without a null entry. *)
Definition complete_arrays (times air soil : list json) : bool :=
  negb (length times =? 0)%nat
  && (length air =? length times)%nat
  && (length soil =? length times)%nat
  && forallb (fun v => negb (is_null v)) (times ++ air ++ soil).

(** An outside to run the model on: the network gives [answer] to every
    request; the credential file is there when [file]; [cert] and [init] are
    what [Certificate] and [initialize_app] raise; [got] is what reading the
    flag gives and [updated] what writing it raises. *)
Definition outside (answer : res response) (file : bool)
    (cert init : option exn) (got : res json) (updated : option exn) : env :=
  {| requests_get := fun _ => answer;
     isfile_credentials := file;
     import_firebase_admin := None;
     Certificate := cert;
     initialize_app := init;
     import_db := None;
     db_reference := fun _ => None;
     ref_get := fun _ => got;
     ref_update := fun _ _ => updated |}.

(** Only the network matters. *)
Definition answering (answer : res response) : env :=
  outside answer false None None (Exc ConnectionError) (Some ConnectionError).

(** Only the store matters. *)
Definition store (file : bool) (cert init : option exn) (got : res json)
    (updated : option exn) : env :=
  outside (Exc ConnectionError) file cert init got updated.

Definition ok_response (data : json) : response :=
  {| status := 200; body := Ret data |}.

(** [float(v)] succeeds. *)
Definition convertible (float_of_string : string -> option Q) (v : json) : bool :=
  match py_float float_of_string v with Ret _ => true | Exc _ => false end.

(** A candidate of a geocoding response that has a ["lat"] and a ["lon"]
    entry, both convertible to float. *)
Definition well_formed (float_of_string : string -> option Q) (c : json) : bool :=
  match c with
  | JObj items =>
      match lookup "lat" items, lookup "lon" items with
      | Some la, Some lo =>
          convertible float_of_string la && convertible float_of_string lo
      | _, _ => false
      end
  | _ => false
  end.

Definition paris : json :=
  JObj [("display_name", JStr "Paris, France");
        ("lat", JStr "48.8588897"); ("lon", JStr "2.3200410")].

Definition orleans_without_lon : json :=
  JObj [("display_name", JStr "Orleans, France"); ("lat", JStr "47.9027336")].

(** The ways the weather fetch can fail. *)
Inductive failure : Type :=
| Upstream_timeout
| Bad_request
| Http_status (code : Z)
| Network (e : exn)
| Missing_hourly
| Partial_data
| Other (e : exn).

(** The message each of them puts on the page. *)
Definition report (f : failure) : event :=
  match f with
  | Upstream_timeout => St_error Timeout_open_meteo
  | Bad_request => St_error Requete_invalide
  | Http_status code => St_error (Erreur_HTTP code)
  | Network e => St_error (Erreur_connexion e)
  | Missing_hourly => St_error Format_inattendu
  | Partial_data => St_warning Parametres_indisponibles
  | Other e => St_error (Erreur_inattendue e)
  end.

Definition absent_or_empty (k : string) (hourly : list (string * json)) : Prop :=
  lookup k hourly = None \/ lookup k hourly = Some (JArr []).

(** [fails E r f]: the outside [E] makes the request [r] fail in the way
    [f]. *)
Inductive fails (E : env) (r : request) : failure -> Prop :=
| fails_timeout :
    requests_get E r = Exc Timeout ->
    fails E r Upstream_timeout
| fails_bad_request resp :
    requests_get E r = Ret resp -> status resp = 400 ->
    fails E r Bad_request
| fails_http resp :
    requests_get E r = Ret resp ->
    400 <= status resp < 600 -> status resp <> 400 ->
    fails E r (Http_status (status resp))
| fails_network e :
    requests_get E r = Exc e -> e = ConnectionError \/ e = RequestException ->
    fails E r (Network e)
| fails_missing_hourly resp items :
    requests_get E r = Ret resp -> raise_for_status resp = Ret tt ->
    body resp = Ret (JObj items) -> lookup "hourly" items = None ->
    fails E r Missing_hourly
| fails_partial_data resp items hourly :
    requests_get E r = Ret resp -> raise_for_status resp = Ret tt ->
    body resp = Ret (JObj items) -> lookup "hourly" items = Some (JObj hourly) ->
    absent_or_empty "relative_humidity_2m" hourly
    \/ absent_or_empty "soil_moisture_0_to_1cm" hourly ->
    fails E r Partial_data
| fails_other_request e :
    requests_get E r = Exc e -> isinstance_RequestException e = false ->
    fails E r (Other e)
| fails_other_json resp e :
    requests_get E r = Ret resp -> raise_for_status resp = Ret tt ->
    body resp = Exc e -> isinstance_RequestException e = false ->
    fails E r (Other e)
| fails_other_data resp data e :
    requests_get E r = Ret resp -> raise_for_status resp = Ret tt ->
    body resp = Ret data -> py_in "hourly" data = Exc e ->
    fails E r (Other e)
| fails_other_hourly resp items hourly e :
    requests_get E r = Ret resp -> raise_for_status resp = Ret tt ->
    body resp = Ret (JObj items) -> lookup "hourly" items = Some hourly ->
    dict_get hourly "relative_humidity_2m" JNull = Exc e ->
    fails E r (Other e)
| fails_network_json resp e :
    requests_get E r = Ret resp -> raise_for_status resp = Ret tt ->
    body resp = Exc e ->
    e = JSONDecodeError \/ e = ConnectionError \/ e = RequestException ->
    fails E r (Network e)
| fails_other_shape resp data e :
    requests_get E r = Ret resp -> raise_for_status resp = Ret tt ->
    body resp = Ret data -> py_in "hourly" data = Ret true ->
    dict_get data "hourly" (JObj []) = Exc e ->
    fails E r (Other e).

(** What holds of the store at every moment of the life of the process:
    [initialize_app] has succeeded at most once, the registry of
    firebase_admin holds the client it made, and the cache of the script
    holds no other. *)
Definition consistent (w : world) : Prop :=
  match firebase_admin_apps w with
  | None => apps_created w = 0%nat /\ _firebase_app w = None
  | Some a =>
      apps_created w = 1%nat /\ a = 0%nat
      /\ (_firebase_app w = None \/ _firebase_app w = Some 0%nat)
  end.

(** [init_failure E w e evs]: in the state [w], where no client is
    registered, the initialisation under [E] raises [e], after the library
    calls [evs] (newest first). *)
Inductive init_failure (E : env) (w : world) : exn -> list event -> Prop :=
| import_raises e :
    import_firebase_admin E = Some e ->
    init_failure E w e []
| Certificate_raises e :
    import_firebase_admin E = None -> firebase_admin_apps w = None ->
    Certificate E = Some e ->
    init_failure E w e [Call_Certificate]
| initialize_app_raises e :
    import_firebase_admin E = None -> firebase_admin_apps w = None ->
    Certificate E = None -> initialize_app E = Some e ->
    init_failure E w e [Call_initialize_app; Call_Certificate].

(** Every way a call of [get_firebase_app] can go. *)
Inductive get_firebase_app_case (E : env) (w : world)
  : option app -> world -> Prop :=
| case_cached a :
    _firebase_app w = Some a ->
    get_firebase_app_case E w (Some a) w
| case_no_file :
    _firebase_app w = None -> isfile_credentials E = false ->
    get_firebase_app_case E w None
      (set_firebase_error (Some Fichier_introuvable) w)
| case_registered a :
    _firebase_app w = None -> isfile_credentials E = true ->
    import_firebase_admin E = None -> firebase_admin_apps w = Some a ->
    get_firebase_app_case E w (Some a)
      (set_firebase_app (Some a) (log [Call_get_app] (set_firebase_error None w)))
| case_initialized :
    _firebase_app w = None -> isfile_credentials E = true ->
    import_firebase_admin E = None -> firebase_admin_apps w = None ->
    Certificate E = None -> initialize_app E = None ->
    get_firebase_app_case E w (Some (apps_created w))
      (set_firebase_app (Some (apps_created w))
         (register_app
            (log [Call_initialize_app; Call_Certificate]
               (set_firebase_error None w))))
| case_failed e evs :
    _firebase_app w = None -> isfile_credentials E = true ->
    init_failure E w e evs ->
    get_firebase_app_case E w None
      (log evs (set_firebase_error (Some (Str_exn e)) w)).

(** Under [E] the credential file is there and the initialisation raises. *)
Definition init_fails (w : world) (E : env) : Prop :=
  isfile_credentials E = true /\ exists e evs, init_failure E w e evs.

(** Under [E] the initialisation goes through. *)
Definition init_succeeds (E : env) : Prop :=
  isfile_credentials E = true /\ import_firebase_admin E = None
  /\ Certificate E = None /\ initialize_app E = None.

(** Successive calls of [get_firebase_app], one outside each. *)
Definition calls (Es : list env) : list step := map Do_get_firebase_app Es.

(** The remote read of the flag fails. *)
Definition read_fails (E : env) : Prop :=
  (exists e, import_db E = Some e)
  \/ (exists e, db_reference E "/vanne/etat" = Some e)
  \/ (exists e, ref_get E "/vanne/etat" = Exc e).

(** The remote write of the flag fails. *)
Definition write_fails (E : env) (etat : bool) : Prop :=
  (exists e, import_db E = Some e)
  \/ (exists e, db_reference E "/vanne" = Some e)
  \/ (exists e, ref_update E "/vanne" (JObj [("etat", JBool etat)]) = Some e).

(** [parses parse column c]: the cell is null or a string that [parse]
    reads within [column], as an instant or as NaT; [instant parse column c]
    is what it reads. *)
Definition parses (parse : list (option string) -> string -> option (option Z))
    (column : list (option string)) (c : option string) : bool :=
  match c with
  | Some s => match parse column s with Some _ => true | None => false end
  | None => true
  end.

Definition instant (parse : list (option string) -> string -> option (option Z))
    (column : list (option string)) (c : option string) : option Z :=
  match c with
  | Some s => match parse column s with Some t => t | None => None end
  | None => None
  end.

(** The positions of three columns at which no entry is null, as rows, in
    the order of the columns. *)
Fixpoint complete_rows (d : list (option Z)) (a s : list (option Q)) : DataFrame :=
  match d, a, s with
  | Some t :: d', Some x :: a', Some y :: s' =>
      {| datetime := Some t; humidity_air := Some x; humidity_soil := Some y |}
      :: complete_rows d' a' s'
  | _ :: d', _ :: a', _ :: s' => complete_rows d' a' s'
  | _, _, _ => []
  end.

(** What [fetch_open_meteo_data] hands on when it does not fail: an object
    with an ["hourly"] object in which both variables are there and true. *)
Definition weather_data (v : json) : Prop :=
  exists items hourly air soil,
    v = JObj items
    /\ lookup "hourly" items = Some (JObj hourly)
    /\ lookup "relative_humidity_2m" hourly = Some air /\ truthy air = true
    /\ lookup "soil_moisture_0_to_1cm" hourly = Some soil /\ truthy soil = true.

Definition is_request (ev : event) : bool :=
  match ev with Call_requests_get _ => true | _ => false end.

(** A record with a null in two of the arrays, at different hours, and an
    empty timestamp in the last. *)
Definition gappy_record : json :=
  record_of
    [JStr "2024-06-01T00:00"; JStr "2024-06-01T01:00"; JStr "2024-06-01T02:00";
     JNull; JStr ""]
    [JNum 64; JNull; JNum 61; JNum 60; JNum 59]
    [JNum 0.33; JNum 0.32; JNum 0.31; JNum 0.30; JNum 0.29].

(** [show_events evs p]: the script showed [evs] (newest first) after
    [p]. *)
Definition show_events (evs : list ui_event) (p : page) : page :=
  {| backend := backend p; latitude := latitude p; longitude := longitude p;
     address_query := address_query p;
     address_suggestions := address_suggestions p; shown := evs ++ shown p |}.

(** A page to run the script on. *)
Definition first_page : page :=
  {| backend := process_start; latitude := 47.5; longitude := 2;
     address_query := ""; address_suggestions := []; shown := [] |}.

(** [lookup_ends E r o]: under [E] the single-result lookup [r] ends without
    a candidate: with the exception [e] when [o] is [Some e], silently when
    [o] is [None] (the answer is empty). *)
Inductive lookup_ends (E : env) (r : request) : option exn -> Prop :=
| ends_request_raises e :
    requests_get E r = Exc e ->
    lookup_ends E r (Some e)
| ends_error_status resp :
    requests_get E r = Ret resp -> 400 <= status resp < 600 ->
    lookup_ends E r (Some (HTTPError (status resp)))
| ends_json_raises resp e :
    requests_get E r = Ret resp -> raise_for_status resp = Ret tt ->
    body resp = Exc e ->
    lookup_ends E r (Some e)
| ends_object resp kv items :
    requests_get E r = Ret resp -> raise_for_status resp = Ret tt ->
    body resp = Ret (JObj (kv :: items)) ->
    lookup_ends E r (Some KeyError)
| ends_empty resp data :
    requests_get E r = Ret resp -> raise_for_status resp = Ret tt ->
    body resp = Ret data -> truthy data = false ->
    lookup_ends E r None.

Definition lookup_error (o : option exn) : list ui_event :=
  match o with
  | Some e =>
      [Sidebar_error
         match e with
         | Timeout => Timeout_adresse
         | HTTPError _ | ConnectionError | JSONDecodeError | RequestException =>
             Erreur_connexion_adresse e
         | KeyError | ValueError => Format_reponse_inattendu
         | _ => Erreur_inattendue_adresse e
         end]
  | None => []
  end.

Fixpoint all_digits (s : string) : bool :=
  match s with
  | EmptyString => true
  | String c rest =>
      match digit_value c with Some _ => all_digits rest | None => false end
  end.

(** A page with three suggestions, two of them of the same name. *)
Definition three_suggestions : page :=
  {| backend := process_start; latitude := 47.5; longitude := 2;
     address_query := "Saint";
     address_suggestions :=
       [ {| display_name := JStr "Saint-Denis"; lat := 48.9; lon := 2.4 |};
         {| display_name := JStr "Saint-Malo"; lat := 48.6; lon := -2 |};
         {| display_name := JStr "Saint-Denis"; lat := -20.9; lon := 55.5 |} ];
     shown := [] |}.

Definition is_update (ev : event) : bool :=
  match ev with Call_ref_update _ _ => true | _ => false end.

(** How many times [ref.update] was called so far. *)
Definition updates (w : world) : nat := length (filter is_update (trace w)).

(** Under [E] the store is reached, so that [ref.update] is called; and the
    update goes through. *)
Definition update_called (E : env) : bool :=
  match import_db E, db_reference E "/vanne" with
  | None, None => true
  | _, _ => false
  end.

Definition write_goes_through (E : env) (etat : bool) : bool :=
  update_called E
  && match ref_update E "/vanne" (JObj [("etat", JBool etat)]) with
     | None => true
     | Some _ => false
     end.

(** A computation is [quiet] when its result and the messages it leaves are
    the same in every state, and it changes nothing else. *)
Definition quiet {A} (m : M A) : Prop :=
  exists r evs, forall w, m w = (r, log evs w).

(** A computation [returns] when it raises in no state. *)
Definition returns {A} (m : M A) : Prop :=
  forall w, exists a w', m w = (Ret a, w').

(* ================================================================== *)
(** ** Computing with [M] *)

Lemma log_nil w : log [] w = w.
Proof. destruct w; reflexivity. Qed.

Lemma log_app evs evs' w : log evs (log evs' w) = log (evs ++ evs') w.
Proof. unfold log; cbn. now rewrite app_assoc. Qed.

Lemma quiet_ret {A} (a : A) : quiet (ret a).
Proof. exists (Ret a), []. intros w. now rewrite log_nil. Qed.

Lemma quiet_lift {A} (r : res A) : quiet (lift r).
Proof. exists r, []. intros w. now rewrite log_nil. Qed.

Lemma quiet_emit ev : quiet (emit ev).
Proof. now exists (Ret tt), [ev]. Qed.

Lemma quiet_bind {A B} (m : M A) (k : A -> M B) :
  quiet m -> (forall a, quiet (k a)) -> quiet (bind m k).
Proof.
  intros [r [evs Hm]] Hk. destruct r as [a | e].
  - destruct (Hk a) as [r' [evs' Hk']].
    exists r', (evs' ++ evs)%list. intros w.
    unfold bind. now rewrite Hm, Hk', log_app.
  - exists (Exc e), evs. intros w. unfold bind. now rewrite Hm.
Qed.

Lemma quiet_try_except {A} (m : M A) (h : exn -> M A) :
  quiet m -> (forall e, quiet (h e)) -> quiet (try_except m h).
Proof.
  intros [r [evs Hm]] Hh. destruct r as [a | e].
  - exists (Ret a), evs. intros w. unfold try_except. now rewrite Hm.
  - destruct (Hh e) as [r' [evs' Hh']].
    exists r', (evs' ++ evs)%list. intros w.
    unfold try_except. now rewrite Hm, Hh', log_app.
Qed.

Lemma returns_try_except {A} (m : M A) (h : exn -> M A) :
  (forall e, returns (h e)) -> returns (try_except m h).
Proof.
  intros Hh w. unfold try_except. destruct (m w) as [[a | e] w'].
  - now exists a, w'.
  - apply Hh.
Qed.

Lemma returns_emit_ret {A} ev (a : A) : returns (emit ev ;; ret a).
Proof. intros w. now exists a, (log [ev] w). Qed.

(* ================================================================== *)
(** ** Normalisation: [process_meteo_data] *)

Section Normalisation.

Variable parse_datetime : list (option string) -> string -> option (option Z).
Variable pandas_other : json -> json -> json -> res DataFrame.

Local Abbreviation process := (process_meteo_data parse_datetime pandas_other).
Local Abbreviation arrays := (process_arrays parse_datetime pandas_other).

Lemma process_meteo_data_arrays api_data times air soil :
  hourly_arrays api_data = Some (times, air, soil) ->
  forall w,
    process api_data w = try_except (arrays times air soil) process_error w.
Proof.
  intros H w. destruct api_data as [| | | | |items]; try discriminate.
  cbn in H. unfold process_meteo_data, try_except, bind, lift, dict_get.
  destruct (lookup "hourly" items) as [[| | | | |hourly]|]; try discriminate.
  destruct (lookup "time" hourly) as [t|]; try discriminate.
  destruct (lookup "relative_humidity_2m" hourly) as [a|]; try discriminate.
  destruct (lookup "soil_moisture_0_to_1cm" hourly) as [s|]; try discriminate.
  now inversion H; subst.
Qed.

Lemma time_column_strings ts :
  time_column (JArr (map JStr ts)) = Some (map Some ts).
Proof.
  cbn. induction ts as [|s ts IH]; cbn; [reflexivity | now rewrite IH].
Qed.

Lemma num_column_numbers qs :
  num_column (JArr (map JNum qs)) = Some (map Some qs).
Proof.
  cbn. induction qs as [|q qs IH]; cbn; [reflexivity | now rewrite IH].
Qed.

Lemma to_datetime_in_parsed column ts : forall zs,
  map (parse_datetime column) ts = map (fun z => Some (Some z)) zs ->
  to_datetime_in parse_datetime column (map Some ts) = Ret (map Some zs).
Proof.
  induction ts as [|s ts IH]; intros [|z zs] H; try discriminate.
  - reflexivity.
  - cbn in H. injection H as Hs Hts. cbn. rewrite Hs, (IH zs Hts). reflexivity.
Qed.

Lemma to_datetime_parsed ts zs :
  map (parse_datetime (map Some ts)) ts = map (fun z => Some (Some z)) zs ->
  to_datetime parse_datetime (map Some ts) = Ret (map Some zs).
Proof. apply to_datetime_in_parsed. Qed.

Lemma to_datetime_in_length column col : forall d,
  to_datetime_in parse_datetime column col = Ret d -> length d = length col.
Proof.
  induction col as [|[s|] col IH]; intros d H; cbn in H.
  - now inversion H.
  - destruct (parse_datetime column s); [|discriminate].
    destruct (to_datetime_in parse_datetime column col) as [r|]; [|discriminate].
    inversion H; subst. cbn. now rewrite (IH r).
  - destruct (to_datetime_in parse_datetime column col) as [r|]; [|discriminate].
    inversion H; subst. cbn. now rewrite (IH r).
Qed.

Lemma to_datetime_length col d :
  to_datetime parse_datetime col = Ret d -> length d = length col.
Proof. apply to_datetime_in_length. Qed.

Lemma to_datetime_in_raises column col e :
  to_datetime_in parse_datetime column col = Exc e -> e = ValueError.
Proof.
  induction col as [|[s|] col IH]; cbn; intros H.
  - discriminate.
  - destruct (parse_datetime column s); [|now inversion H].
    destruct (to_datetime_in parse_datetime column col); [discriminate|].
    inversion H; subst. now apply IH.
  - destruct (to_datetime_in parse_datetime column col); [discriminate|].
    inversion H; subst. now apply IH.
Qed.

Lemma to_datetime_raises col e :
  to_datetime parse_datetime col = Exc e -> e = ValueError.
Proof. apply to_datetime_in_raises. Qed.

Lemma to_datetime_in_all_null column col :
  all_null col ->
  to_datetime_in parse_datetime column col = Ret (map (fun _ => None) col).
Proof.
  induction 1 as [|c col Hc _ IH]; [reflexivity|].
  subst c. cbn. now rewrite IH.
Qed.

Lemma to_datetime_all_null col :
  all_null col -> to_datetime parse_datetime col = Ret (map (fun _ => None) col).
Proof. apply to_datetime_in_all_null. Qed.

End Normalisation.

(** Rows built from complete columns of one length. *)
Lemma zip_rows_complete (zs : list Z) : forall (a s : list Q),
  length a = length zs -> length s = length zs ->
  let df := zip_rows (map Some zs) (map Some a) (map Some s) in
  dropna df = df /\ length df = length zs /\
  map datetime df = map Some zs /\
  map humidity_air df = map Some a /\
  map humidity_soil df = map Some s /\
  forallb notna df = true /\ datetimes df = zs.
Proof.
  induction zs as [|z zs IH]; intros [|qa a] [|qs s] Ha Hs; try discriminate.
  - now cbn.
  - cbn in Ha, Hs. injection Ha as Ha. injection Hs as Hs.
    destruct (IH a s Ha Hs) as (H1 & H2 & H3 & H4 & H5 & H6 & H7).
    cbn. unfold dropna in H1. rewrite H1, H2, H3, H4, H5, H6.
    unfold datetimes in H7. rewrite H7. now repeat split.
Qed.

Lemma dropna_null_dates (d : list (option Z)) : forall (a s : list (option Q)),
  Forall (fun c => c = None) d -> dropna (zip_rows d a s) = [].
Proof.
  induction d as [|c d IH]; intros a s H; [reflexivity|].
  inversion H; subst. destruct a as [|qa a], s as [|qs s]; try reflexivity.
  cbn. now apply IH.
Qed.

Lemma sequence_length {A} (l : list (option A)) : forall r,
  sequence l = Some r -> length r = length l.
Proof.
  induction l as [|[a|] l IH]; intros r H; cbn in H; try discriminate.
  - now inversion H.
  - destruct (sequence l) as [r'|]; [|discriminate].
    inversion H; subst. cbn. now rewrite (IH r').
Qed.

Lemma time_column_array times tc :
  time_column times = Some tc ->
  exists l, times = JArr l /\ length l = length tc.
Proof.
  destruct times as [| | | |l|]; try discriminate. cbn. intros H.
  exists l. split; [reflexivity|].
  apply sequence_length in H. now rewrite H, length_map.
Qed.

Lemma num_column_array v c :
  num_column v = Some c -> exists l, v = JArr l /\ length l = length c.
Proof.
  destruct v as [| | | |l|]; try discriminate. cbn. intros H.
  exists l. split; [reflexivity|].
  apply sequence_length in H. now rewrite H, length_map.
Qed.

Lemma map_none_all_null {A B} (l : list A) :
  Forall (fun c : option B => c = None) (map (fun _ => None) l).
Proof. induction l; constructor; auto. Qed.

Ltac quiet_steps :=
  repeat first
    [ apply quiet_ret | apply quiet_lift | apply quiet_emit
    | apply quiet_try_except | apply quiet_bind | intro
    | match goal with
      | |- quiet (if ?b then _ else _) => destruct b
      | |- quiet (match ?x with _ => _ end) => destruct x
      end ].

Lemma process_meteo_data_quiet parse other api_data :
  quiet (process_meteo_data parse other api_data).
Proof.
  unfold process_meteo_data, process_arrays, process_error. quiet_steps.
Qed.

Lemma process_meteo_data_returns parse other api_data :
  returns (process_meteo_data parse other api_data).
Proof.
  apply returns_try_except. intros e. apply returns_emit_ret.
Qed.

(** C1, as amended.  On a record whose three arrays are non-empty and of one
    length, the two humidity arrays all numbers and the timestamps all
    strings that [pd.to_datetime], reading the column as a whole, takes for
    instants (none refused, none taken for NaT), [process_meteo_data] returns
    a frame with as many rows as the arrays have entries and no null cell;
    row [i] holds the [i]-th instant and the [i]-th values, so the rows stand
    in the order of the input: they ascend exactly when the input timestamps
    do.  Nothing is put on the page. *)
Theorem process_meteo_data_complete_record
    (parse : list (option string) -> string -> option (option Z))
    (other : json -> json -> json -> res DataFrame)
    (api_data : json) (ts : list string) (air soil : list Q) (zs : list Z)
    (w : world) :
  hourly_arrays api_data
    = Some (JArr (map JStr ts), JArr (map JNum air), JArr (map JNum soil)) ->
  ts <> [] ->
  length air = length ts ->
  length soil = length ts ->
  map (parse (map Some ts)) ts = map (fun z => Some (Some z)) zs ->
  exists df,
    process_meteo_data parse other api_data w = (Ret (Some df), w) /\
    length df = length ts /\
    map datetime df = map Some zs /\
    map humidity_air df = map Some air /\
    map humidity_soil df = map Some soil /\
    forallb notna df = true /\
    ascending (datetimes df) = ascending zs.
Proof.
  intros Harr Hne Ha Hs Hp.
  assert (Hlen : length zs = length ts).
  { rewrite <- (length_map (fun z => Some (Some z)) zs), <- Hp.
    apply length_map. }
  rewrite <- Hlen in Ha, Hs.
  destruct (zip_rows_complete zs air soil Ha Hs)
    as (Hdrop & Hl & Hd & Hha & Hhs & Hnn & Hdt).
  exists (zip_rows (map Some zs) (map Some air) (map Some soil)).
  split; [|rewrite Hdt, <- Hlen; now repeat split].
  rewrite (process_meteo_data_arrays _ _ _ _ _ _ Harr).
  unfold process_arrays, pd_DataFrame.
  rewrite time_column_strings, !num_column_numbers, (to_datetime_parsed _ _ _ Hp).
  destruct ts as [|t ts]; [contradiction|].
  destruct zs as [|z zs]; [discriminate|].
  destruct air as [|qa air]; [discriminate|].
  destruct soil as [|qs soil]; [discriminate|].
  unfold try_except, bind, lift, rbind.
  rewrite !length_map, Ha, Hs, !Nat.eqb_refl. cbn [truthy map negb orb andb].
  cbn [map] in Hdrop. rewrite Hdrop. reflexivity.
Qed.

(** C2, as amended.  On a record whose arrays are columns of timestamps or
    nulls and of numbers or nulls, and either differ in length or hold
    nothing but nulls, [process_meteo_data] returns [None] without raising
    and leaves one message: "Données incomplètes" when an array is empty,
    else "Erreur lors du traitement" (a [ValueError]) when the lengths
    differ, else "Aucune donnée valide". *)
Theorem process_meteo_data_rejects
    (parse : list (option string) -> string -> option (option Z))
    (other : json -> json -> json -> res DataFrame)
    (api_data times air soil : json)
    (tc : list (option string)) (ac sc : list (option Q)) (w : world) :
  hourly_arrays api_data = Some (times, air, soil) ->
  time_column times = Some tc ->
  num_column air = Some ac ->
  num_column soil = Some sc ->
  (length ac <> length tc \/ length sc <> length tc)
  \/ (all_null tc /\ all_null ac /\ all_null sc) ->
  process_meteo_data parse other api_data w
    = (Ret None, log [rejection tc ac sc] w).
Proof.
  intros Harr Ht Ha Hs Hbad.
  rewrite (process_meteo_data_arrays _ _ _ _ _ _ Harr).
  unfold process_arrays, pd_DataFrame. rewrite Ht, Ha, Hs.
  destruct (time_column_array _ _ Ht) as (lt & -> & Hlt).
  destruct (num_column_array _ _ Ha) as (la & -> & Hla).
  destruct (num_column_array _ _ Hs) as (ls & -> & Hls).
  destruct tc as [|c0 tc]; [destruct lt; [reflexivity|discriminate]|].
  destruct ac as [|a0 ac];
    [destruct lt, la; try discriminate; reflexivity|].
  destruct sc as [|s0 sc];
    [destruct lt, la, ls; try discriminate; reflexivity|].
  destruct lt as [|? ?]; [discriminate|].
  destruct la as [|? ?]; [discriminate|].
  destruct ls as [|? ?]; [discriminate|].
  cbn [truthy negb orb]. unfold try_except, bind, lift, rbind, rejection.
  destruct (to_datetime parse (c0 :: tc)) as [d|e] eqn:Hd.
  - rewrite (to_datetime_length parse _ _ Hd).
    destruct ((length (c0 :: tc) =? length (a0 :: ac))%nat
              && (length (c0 :: tc) =? length (s0 :: sc))%nat) eqn:Heq;
      [|reflexivity].
    apply andb_prop in Heq as [E1 E2]. apply Nat.eqb_eq in E1, E2.
    destruct Hbad as [[Hm | Hm] | (Hnull & _ & _)]; try congruence.
    rewrite (to_datetime_all_null parse _ Hnull) in Hd.
    injection Hd as <-.
    rewrite dropna_null_dates; [reflexivity|].
    apply (map_none_all_null (c0 :: tc)).
  - pose proof (to_datetime_raises parse _ _ Hd) as ->.
    destruct Hbad as [Hm | (Hnull & _ & _)].
    + destruct ((length (c0 :: tc) =? length (a0 :: ac))%nat
                && (length (c0 :: tc) =? length (s0 :: sc))%nat) eqn:Heq;
        [|reflexivity].
      apply andb_prop in Heq as [E1 E2]. apply Nat.eqb_eq in E1, E2.
      destruct Hm; congruence.
    + apply to_datetime_all_null with (parse_datetime := parse) in Hnull.
      congruence.
Qed.


(** Two hourly samples in order. *)
Lemma process_meteo_data_complete_record_witness :
  exists df,
    process_meteo_data (reader_at 0) refuse ordered_record process_start
      = (Ret (Some df), process_start) /\
    length df = 2%nat /\
    map datetime df = [Some 28620000; Some 28620060] /\
    map humidity_air df = [Some 64%Q; Some 63%Q] /\
    map humidity_soil df = [Some 0.33%Q; Some 0.32%Q] /\
    forallb notna df = true /\
    ascending (datetimes df) = true.
Proof.
  apply (process_meteo_data_complete_record (reader_at 0) refuse ordered_record
           ["2024-06-01T00:00"; "2024-06-01T01:00"]
           [64%Q; 63%Q] [0.33%Q; 0.32%Q] [28620000; 28620060] process_start);
    try reflexivity.
  discriminate.
Defined.

(** C1, as stated, fails three times.  The arrays of [unordered_record]
    are non-empty, of one length and without nulls, and the frame returned
    has its three rows in the order of the input, which is not ascending.
    The arrays of [undated_record] are so too, and the result is [None]: its
    timestamp is no date and [pd.to_datetime] raises.  Those of
    [blank_record] are so too, and the frame has one row for two entries:
    the empty timestamp is read as NaT and its row dropped. *)
Lemma process_meteo_data_keeps_input_order :
  (exists times air soil df,
      hourly_arrays unordered_record = Some (JArr times, JArr air, JArr soil) /\
      complete_arrays times air soil = true /\
      process_meteo_data (reader_at 0) refuse unordered_record process_start
        = (Ret (Some df), process_start) /\
      length df = length times /\
      forallb notna df = true /\
      datetimes df = [28620120; 28620000; 28620060] /\
      ascending (datetimes df) = false)
  /\ (exists times air soil,
        hourly_arrays undated_record = Some (JArr times, JArr air, JArr soil) /\
        complete_arrays times air soil = true /\
        process_meteo_data (reader_at 0) refuse undated_record process_start
          = (Ret None,
             log [St_error (Erreur_traitement ValueError)] process_start))
  /\ (exists times air soil df,
        hourly_arrays blank_record = Some (JArr times, JArr air, JArr soil) /\
        complete_arrays times air soil = true /\
        process_meteo_data (reader_at 0) refuse blank_record process_start
          = (Ret (Some df), process_start) /\
        length times = 2%nat /\
        length df = 1%nat).
Proof.
  split; [|split].
  - do 4 eexists. split; [reflexivity|]. repeat split; reflexivity.
  - do 3 eexists. split; [reflexivity|]. split; reflexivity.
  - do 4 eexists. split; [reflexivity|]. repeat split; reflexivity.
Qed.

(** Two hours of nulls. *)
Lemma process_meteo_data_rejects_witness :
  process_meteo_data (reader_at 0) refuse null_record process_start
    = (Ret None, log [St_warning Aucune_donnee_valide] process_start).
Proof.
  apply (process_meteo_data_rejects (reader_at 0) refuse null_record
           (JArr [JNull; JNull]) (JArr [JNull; JNull]) (JArr [JNull; JNull])
           [None; None] [None; None] [None; None] process_start);
    try reflexivity.
  right. repeat split; repeat constructor.
Defined.

(** C2, as stated, fails: one array of [ragged_record] is longer than the
    others; the result is [None] and nothing is raised, but the message is
    "Erreur lors du traitement des données", not "Aucune donnée valide". *)
Lemma process_meteo_data_ragged_record :
  exists times air soil,
    hourly_arrays ragged_record = Some (JArr times, JArr air, JArr soil) /\
    length air <> length times /\
    process_meteo_data (reader_at 0) refuse ragged_record process_start
      = (Ret None, log [St_error (Erreur_traitement ValueError)] process_start) /\
    St_error (Erreur_traitement ValueError) <> St_warning Aucune_donnee_valide.
Proof.
  do 3 eexists. split; [reflexivity|]. repeat split; discriminate || reflexivity.
Qed.

Lemma to_datetime_in_ext parse1 parse2 column col :
  (forall s, In (Some s) col -> parse1 column s = parse2 column s) ->
  to_datetime_in parse1 column col = to_datetime_in parse2 column col.
Proof.
  induction col as [|[s|] col IH]; intros H; cbn.
  - reflexivity.
  - rewrite (H s (or_introl eq_refl)), IH; [reflexivity|].
    intros s' Hs'. apply H. now right.
  - rewrite IH; [reflexivity|]. intros s' Hs'. apply H. now right.
Qed.

(** C8, as amended.  [process_meteo_data] reads no state of the process,
    but pandas reads the clock.  Take two calls on the same record, made at
    two moments and in any two states: when pandas reads every timestamp of
    the record at the second moment as it did at the first (and answers the
    same on arrays that are not columns), the two calls return the same
    result, raise nothing and leave the same messages. *)
Theorem process_meteo_data_deterministic
    (parse1 parse2 : list (option string) -> string -> option (option Z))
    (other1 other2 : json -> json -> json -> res DataFrame)
    (api_data times air soil : json) (tc : list (option string)) :
  hourly_arrays api_data = Some (times, air, soil) ->
  time_column times = Some tc ->
  (forall s, In (Some s) tc -> parse1 tc s = parse2 tc s) ->
  other1 times air soil = other2 times air soil ->
  exists r evs, forall w1 w2,
    process_meteo_data parse1 other1 api_data w1 = (Ret r, log evs w1) /\
    process_meteo_data parse2 other2 api_data w2 = (Ret r, log evs w2).
Proof.
  intros Harr Ht Hsame Hother.
  destruct (process_meteo_data_quiet parse1 other1 api_data) as (r & evs & H).
  destruct (process_meteo_data_returns parse1 other1 api_data process_start)
    as (a & w' & Ha).
  rewrite H in Ha. injection Ha as -> _.
  exists a, evs. intros w1 w2. split; [apply H|].
  rewrite <- H.
  rewrite !(process_meteo_data_arrays _ _ _ _ _ _ Harr).
  unfold process_arrays, pd_DataFrame, to_datetime.
  rewrite Ht, Hother, (to_datetime_in_ext parse2 parse1 tc tc); [reflexivity|].
  intros s Hs. symmetry. now apply Hsame.
Qed.

(** Two samples in order, read at two moments a minute apart. *)
Lemma process_meteo_data_deterministic_witness :
  exists r evs, forall w1 w2,
    process_meteo_data (reader_at 28620000) refuse ordered_record w1
      = (Ret r, log evs w1) /\
    process_meteo_data (reader_at 28620001) refuse ordered_record w2
      = (Ret r, log evs w2).
Proof.
  apply (process_meteo_data_deterministic
           (reader_at 28620000) (reader_at 28620001) refuse refuse
           ordered_record
           (JArr [JStr "2024-06-01T00:00"; JStr "2024-06-01T01:00"])
           (JArr [JNum 64; JNum 63]) (JArr [JNum 0.33; JNum 0.32])
           [Some "2024-06-01T00:00"; Some "2024-06-01T01:00"]);
    try reflexivity.
  intros s [Hs | [Hs | []]]; injection Hs as <-; reflexivity.
Defined.

(** C8, as stated, fails.  The timestamp of [now_record] is the word "now",
    which [pd.to_datetime] reads from the clock: two calls on this one
    record, a minute apart and in the same state, return frames with
    different instants. *)
Lemma process_meteo_data_reads_clock :
  exists df1 df2,
    process_meteo_data (reader_at 28620000) refuse now_record process_start
      = (Ret (Some df1), process_start) /\
    process_meteo_data (reader_at 28620001) refuse now_record process_start
      = (Ret (Some df2), process_start) /\
    datetimes df1 = [28620000] /\
    datetimes df2 = [28620001] /\
    df1 <> df2.
Proof.
  do 2 eexists. repeat split; try reflexivity. discriminate.
Qed.

(* ================================================================== *)
(** ** Address lookup: [search_address_suggestions] *)

(** A slice holds as many characters as asked for, or all of them, and it
    is the beginning of the string. *)
Lemma str_len_firstn s : forall n,
  str_len (str_firstn n s) = Nat.min n (str_len s).
Proof.
  induction s as [|c s IH]; intros n; [now destruct n|].
  cbn [str_firstn str_len]. destruct (is_continuation c) eqn:Hc.
  - cbn [str_len]. rewrite Hc. apply IH.
  - destruct n as [|n]; [reflexivity|].
    cbn [str_len]. rewrite Hc, IH. reflexivity.
Qed.

Lemma str_firstn_prefix s : forall n, prefix (str_firstn n s) s = true.
Proof.
  induction s as [|c s IH]; intros n; [reflexivity|].
  cbn [str_firstn]. destruct (is_continuation c).
  - cbn. destruct (ascii_dec c c); [apply IH | contradiction].
  - destruct n as [|n]; [reflexivity|].
    cbn. destruct (ascii_dec c c); [apply IH | contradiction].
Qed.

(** An accented letter is one character in two bytes. *)
Example str_len_characters :
  str_len "Orléans" = 7%nat /\ String.length "Orléans" = 8%nat
  /\ slice_to 4 (JStr "Orléans") = Ret (JStr "Orlé")
  /\ item0 (JStr "été") = Ret (JStr "é").
Proof. repeat split; reflexivity. Qed.

(** C3.  For a query of fewer than two characters, the empty one included,
    and any limit, [search_address_suggestions] returns the empty list and
    leaves the process as it was: no request is sent, whatever the network
    would answer. *)
Theorem search_address_suggestions_short_query
    (float_of_string : string -> option Q) (E : env) (query : string)
    (limit : Z) (w : world) :
  (str_len query < 2)%nat ->
  search_address_suggestions float_of_string E query limit w = (Ret [], w).
Proof.
  intros H. unfold search_address_suggestions.
  replace (Z.of_nat (str_len query) <? 2) with true
    by (symmetry; apply Z.ltb_lt; lia).
  now rewrite orb_true_r.
Qed.

(** One character of two bytes, on a network that would answer. *)
Lemma search_address_suggestions_short_query_witness :
  search_address_suggestions decimal (answering (Ret (ok_response (JArr [paris])))) "é" 10
    process_start
  = (Ret [], process_start).
Proof.
  apply (search_address_suggestions_short_query decimal
           (answering (Ret (ok_response (JArr [paris])))) "é" 10 process_start).
  cbn. lia.
Defined.

Lemma suggestion_of_well_formed fos c s :
  suggestion_of fos c = Ret s -> well_formed fos c = true.
Proof.
  unfold suggestion_of, well_formed, convertible.
  destruct c as [| | | | |items]; try discriminate. cbn.
  destruct (lookup "lat" items) as [la|]; cbn; [|discriminate].
  destruct (py_float fos la); cbn; [|discriminate].
  destruct (lookup "lon" items) as [lo|]; cbn; [|discriminate].
  now destruct (py_float fos lo).
Qed.

Lemma append_suggestions_malformed fos bad results : forall acc,
  In bad results -> well_formed fos bad = false ->
  exists e, append_suggestions fos results acc = Exc e.
Proof.
  induction results as [|c results IH]; intros acc Hin Hbad; [contradiction|].
  cbn. destruct (suggestion_of fos c) as [s|e] eqn:Hc; [|now exists e].
  destruct Hin as [Heq | Hin].
  - subst c. apply suggestion_of_well_formed in Hc. congruence.
  - cbn. now apply IH.
Qed.

Lemma long_query_guard query :
  (2 <= str_len query)%nat ->
  (query =? "")%string || (Z.of_nat (str_len query) <? 2) = false.
Proof.
  intros H. apply orb_false_intro.
  - destruct query; [cbn in H; lia | reflexivity].
  - apply Z.ltb_ge. lia.
Qed.

(** C9.  When the lookup itself succeeds and answers a list in which one
    candidate has no ["lat"] or no ["lon"] entry, or has one that [float]
    refuses, [search_address_suggestions] returns the empty list: the
    candidates before it are lost with it.  The request was sent. *)
Theorem search_address_suggestions_one_malformed
    (float_of_string : string -> option Q) (E : env) (query : string)
    (limit : Z) (w : world) (resp : response) (results : list json)
    (bad : json) :
  (2 <= str_len query)%nat ->
  requests_get E (nominatim_request query limit) = Ret resp ->
  raise_for_status resp = Ret tt ->
  body resp = Ret (JArr results) ->
  In bad results ->
  well_formed float_of_string bad = false ->
  search_address_suggestions float_of_string E query limit w
  = (Ret [], log [Call_requests_get (nominatim_request query limit)] w).
Proof.
  intros Hq Hget Hst Hbody Hin Hbad.
  destruct (append_suggestions_malformed float_of_string bad results [] Hin Hbad)
    as [e He].
  unfold search_address_suggestions.
  rewrite (long_query_guard query Hq).
  unfold try_except, bind, lift, emit.
  rewrite Hget, Hst, Hbody.
  destruct results as [|c0 results]; [contradiction|].
  cbn [truthy py_len py_iter ret].
  replace (0 <? Z.of_nat (length (c0 :: results))) with true
    by (symmetry; apply Z.ltb_lt; cbn [length]; lia).
  rewrite He. now destruct e.
Qed.

(** A well-formed candidate followed by one without ["lon"]. *)
Lemma search_address_suggestions_one_malformed_witness :
  search_address_suggestions decimal
    (answering (Ret (ok_response (JArr [paris; orleans_without_lon]))))
    "Orl" 10 process_start
  = (Ret [], log [Call_requests_get (nominatim_request "Orl" 10)] process_start).
Proof.
  apply (search_address_suggestions_one_malformed decimal
           (answering (Ret (ok_response (JArr [paris; orleans_without_lon]))))
           "Orl" 10 process_start
           (ok_response (JArr [paris; orleans_without_lon]))
           [paris; orleans_without_lon] orleans_without_lon);
    try reflexivity.
  - cbn. lia.
  - right. left. reflexivity.
Defined.

(** A latitude that is an integer beyond the doubles makes a candidate
    malformed: [float] raises [OverflowError] on it, and the lookup that
    meets it returns the empty list. *)
Example search_address_suggestions_overflow :
  well_formed decimal
    (JObj [("lat", JNum (inject_Z (10 ^ 400))); ("lon", JStr "2.32")]) = false
  /\ py_float decimal (JNum (inject_Z (double_overflow - 1)))
     = Ret (inject_Z (double_overflow - 1))
  /\ fst (search_address_suggestions decimal
            (answering
               (Ret (ok_response
                       (JArr [paris;
                              JObj [("lat", JNum (inject_Z (10 ^ 400)));
                                    ("lon", JStr "2.32")]]))))
            "Par" 10 process_start)
     = Ret [].
Proof. repeat split; vm_compute; reflexivity. Qed.

(** Without the malformed candidate the well-formed one is returned. *)
Example search_address_suggestions_paris :
  fst (search_address_suggestions decimal
         (answering (Ret (ok_response (JArr [paris])))) "Par" 10 process_start)
  = Ret [ {| display_name := JStr "Paris, France";
             lat := 48.8588897; lon := 2.3200410 |} ].
Proof. reflexivity. Qed.

(* ================================================================== *)
(** ** Weather retrieval: [fetch_open_meteo_data] *)

Lemma fetch_open_meteo_data_returns E la lo start_date end_date :
  returns (fetch_open_meteo_data E la lo start_date end_date).
Proof.
  apply returns_try_except. intros e w.
  destruct e; cbn; try (eexists _, _; reflexivity).
  destruct (status_code =? 400); eexists _, _; reflexivity.
Qed.

Lemma report_injective f g : report f = report g -> f = g.
Proof. destruct f, g; cbn; intros H; congruence. Qed.

Lemma raise_for_status_error resp :
  400 <= status resp < 600 ->
  raise_for_status resp = Exc (HTTPError (status resp)).
Proof.
  intros [H1 H2]. unfold raise_for_status.
  apply Z.leb_le in H1. apply Z.ltb_lt in H2. now rewrite H1, H2.
Qed.

Lemma absent_or_empty_falsy k hourly :
  absent_or_empty k hourly ->
  exists v, dict_get (JObj hourly) k JNull = Ret v /\ truthy v = false.
Proof.
  intros [H | H]; cbn; rewrite H; eexists; split; reflexivity.
Qed.

(** C4.  Whichever way the weather request fails, by a timeout, an HTTP
    status 400, another HTTP error status, a connection error, a response
    without ["hourly"], a response in which one of the two variables is
    absent or empty, or any other exception, [fetch_open_meteo_data] returns
    [None] and raises nothing; it leaves one message on the page, and two
    different failures never leave the same message. *)
Theorem fetch_open_meteo_data_failures
    (E : env) (la lo : Q) (start_date end_date : date) (f : failure)
    (w : world) :
  fails E (open_meteo_request la lo start_date end_date) f ->
  fetch_open_meteo_data E la lo start_date end_date w
  = (Ret JNull,
     log [report f;
          Call_requests_get (open_meteo_request la lo start_date end_date)] w)
  /\ (forall g, report g = report f -> g = f).
Proof.
  intros H. split; [|intros g; apply report_injective].
  unfold fetch_open_meteo_data, try_except, bind, lift, emit.
  destruct H as [Hget | resp Hget Hst | resp Hget Hst Hne | e Hget He
                | resp items Hget Hst Hbody Hk
                | resp items hourly Hget Hst Hbody Hk Hv
                | e Hget He | resp e Hget Hst Hbody He
                | resp data e Hget Hst Hbody Hin
                | resp items hourly e Hget Hst Hbody Hk Hh
                | resp e Hget Hst Hbody He
                | resp data e Hget Hst Hbody Hin Hd];
    rewrite Hget.
  - reflexivity.
  - rewrite raise_for_status_error by lia. rewrite Hst. reflexivity.
  - rewrite raise_for_status_error by lia. cbn.
    apply Z.eqb_neq in Hne. now rewrite Hne.
  - now destruct He; subst e.
  - rewrite Hst, Hbody. cbn. now rewrite Hk.
  - rewrite Hst, Hbody. cbn [py_in]. rewrite Hk.
    cbn [negb dict_get]. rewrite Hk.
    destruct Hv as [Hv | Hv].
    + destruct (absent_or_empty_falsy _ _ Hv) as (v & -> & ->). reflexivity.
    + destruct (dict_get (JObj hourly) "relative_humidity_2m" JNull) as [v|] eqn:Ha;
        [|discriminate].
      destruct (truthy v); [|reflexivity].
      destruct (absent_or_empty_falsy _ _ Hv) as (v' & -> & ->). reflexivity.
  - destruct e; try discriminate; reflexivity.
  - rewrite Hst, Hbody. destruct e; try discriminate; reflexivity.
  - rewrite Hst, Hbody. cbn [ret]. rewrite Hin.
    destruct data; try discriminate; injection Hin as <-; reflexivity.
  - rewrite Hst, Hbody. cbn [py_in]. rewrite Hk. cbn [negb dict_get].
    rewrite Hk, Hh.
    destruct hourly; try discriminate; injection Hh as <-; reflexivity.
  - rewrite Hst, Hbody. now destruct He as [-> | [-> | ->]].
  - rewrite Hst, Hbody. cbn [ret]. rewrite Hin. cbn [negb]. rewrite Hd.
    destruct data; try discriminate; injection Hd as <-; reflexivity.
Qed.

(** A request for 47.5, 2.0 on the first of June 2024, timing out. *)
Lemma fetch_open_meteo_data_failures_witness :
  fetch_open_meteo_data (answering (Exc Timeout)) 47.5 2
    {| year := 2024; month := 6; day := 1 |}
    {| year := 2024; month := 6; day := 2 |} process_start
  = (Ret JNull,
     log [St_error Timeout_open_meteo;
          Call_requests_get
            (open_meteo_request 47.5 2 {| year := 2024; month := 6; day := 1 |}
               {| year := 2024; month := 6; day := 2 |})] process_start)
  /\ (forall g, report g = report Upstream_timeout -> g = Upstream_timeout).
Proof.
  apply (fetch_open_meteo_data_failures (answering (Exc Timeout)) 47.5 2
           {| year := 2024; month := 6; day := 1 |}
           {| year := 2024; month := 6; day := 2 |} Upstream_timeout
           process_start).
  apply fails_timeout. reflexivity.
Defined.

(* ================================================================== *)
(** ** The remote flag store *)

Lemma get_firebase_app_cached E w a :
  _firebase_app w = Some a -> get_firebase_app E w = (Ret (Some a), w).
Proof.
  intros H. unfold get_firebase_app, bind, read. now rewrite H.
Qed.


Lemma get_firebase_app_cases E w :
  exists r w',
    get_firebase_app E w = (Ret r, w') /\ get_firebase_app_case E w r w'.
Proof.
  unfold get_firebase_app, bind, read, try_except.
  destruct (_firebase_app w) as [a|] eqn:Hc.
  { exists (Some a), w. split; [reflexivity | exact (case_cached E w a Hc)]. }
  cbn. destruct (isfile_credentials E) eqn:Hf; cbn.
  2:{ eexists _, _. split; [reflexivity | exact (case_no_file E w Hc Hf)]. }
  destruct (import_firebase_admin E) as [e|] eqn:Hi; cbn.
  { eexists _, _. split; [reflexivity|].
    exact (case_failed E w e [] Hc Hf (import_raises E w e Hi)). }
  destruct (firebase_admin_apps w) as [a|] eqn:Ha; cbn.
  { eexists _, _. split; [reflexivity|].
    exact (case_registered E w a Hc Hf Hi Ha). }
  destruct (Certificate E) as [e|] eqn:Hcert; cbn.
  { eexists _, _. split; [reflexivity|].
    exact (case_failed E w e _ Hc Hf (Certificate_raises E w e Hi Ha Hcert)). }
  destruct (initialize_app E) as [e|] eqn:Hinit; cbn.
  { eexists _, _. split; [reflexivity|].
    exact (case_failed E w e _ Hc Hf
             (initialize_app_raises E w e Hi Ha Hcert Hinit)). }
  eexists _, _. split; [reflexivity|].
  exact (case_initialized E w Hc Hf Hi Ha Hcert Hinit).
Qed.

Lemma get_firebase_app_returns E : returns (get_firebase_app E).
Proof.
  intros w. destruct (get_firebase_app_cases E w) as (r & w' & H & _).
  now exists r, w'.
Qed.

Lemma get_firebase_app_memo E w a w' :
  get_firebase_app E w = (Ret (Some a), w') -> _firebase_app w' = Some a.
Proof.
  destruct (get_firebase_app_cases E w) as (r & w1 & H & Hcase).
  rewrite H. intros Heq. injection Heq as Hr Hw.
  destruct Hcase; subst; try discriminate; injection Hr as <-; auto.
Qed.

(** What reading the flag does after the client was asked for. *)
Lemma firebase_get_vanne_etat_run E w :
  exists v evs,
    firebase_get_vanne_etat E w
    = (Ret v, log evs (snd (get_firebase_app E w)))
    /\ (fst (get_firebase_app E w) = Ret None -> v = JNull)
    /\ (read_fails E -> v = JNull).
Proof.
  destruct (get_firebase_app_cases E w) as (r & w1 & Hg & _).
  unfold firebase_get_vanne_etat, try_except, bind. rewrite Hg. cbn [fst snd].
  destruct r as [a|].
  2:{ exists JNull, []. now rewrite log_nil. }
  unfold or_raise, emit, lift, ret, raise.
  destruct (import_db E) as [e|] eqn:Hi.
  { exists JNull, []. now rewrite log_nil. }
  destruct (db_reference E "/vanne/etat") as [e|] eqn:Hr.
  { exists JNull, [Call_db_reference "/vanne/etat"]. now cbn. }
  destruct (ref_get E "/vanne/etat") as [v|e] eqn:Hv.
  - exists v, [Call_ref_get "/vanne/etat"; Call_db_reference "/vanne/etat"].
    repeat split; [discriminate|].
    intros [[e He] | [[e He] | [e He]]]; congruence.
  - exists JNull, [Call_ref_get "/vanne/etat"; Call_db_reference "/vanne/etat"].
    now cbn.
Qed.

(** What writing the flag does after the client was asked for. *)
Lemma firebase_set_vanne_etat_run E etat w :
  exists b evs,
    firebase_set_vanne_etat E etat w
    = (Ret b, log evs (snd (get_firebase_app E w)))
    /\ (fst (get_firebase_app E w) = Ret None -> b = false)
    /\ (write_fails E etat -> b = false)
    /\ (b = true ->
        (exists a, fst (get_firebase_app E w) = Ret (Some a))
        /\ In (Call_ref_update "/vanne" (JObj [("etat", JBool etat)])) evs
        /\ ref_update E "/vanne" (JObj [("etat", JBool etat)]) = None).
Proof.
  destruct (get_firebase_app_cases E w) as (r & w1 & Hg & _).
  unfold firebase_set_vanne_etat, try_except, bind. rewrite Hg. cbn [fst snd].
  destruct r as [a|].
  2:{ exists false, []. rewrite log_nil. repeat split; discriminate. }
  unfold or_raise, emit, lift, ret, raise.
  destruct (import_db E) as [e|] eqn:Hi.
  { exists false, []. rewrite log_nil. repeat split; discriminate. }
  destruct (db_reference E "/vanne") as [e|] eqn:Hr.
  { exists false, [Call_db_reference "/vanne"]. repeat split; discriminate. }
  destruct (ref_update E "/vanne" (JObj [("etat", JBool etat)])) as [e|] eqn:Hu.
  - exists false, [Call_ref_update "/vanne" (JObj [("etat", JBool etat)]);
                   Call_db_reference "/vanne"].
    repeat split; discriminate.
  - exists true, [Call_ref_update "/vanne" (JObj [("etat", JBool etat)]);
                  Call_db_reference "/vanne"].
    repeat split; try discriminate.
    + intros [[e He] | [[e He] | [e He]]]; congruence.
    + now exists a.
    + now left.
Qed.

Lemma consistent_log evs w : consistent w -> consistent (log evs w).
Proof. exact (fun H => H). Qed.

Lemma consistent_rerun w : consistent w -> consistent (rerun w).
Proof.
  unfold consistent, rerun. cbn.
  destruct (firebase_admin_apps w); intuition.
Qed.

Lemma get_firebase_app_consistent E w :
  consistent w -> consistent (snd (get_firebase_app E w)).
Proof.
  intros Hw. destruct (get_firebase_app_cases E w) as (r & w' & H & Hcase).
  rewrite H. cbn [snd]. unfold consistent in *.
  destruct Hcase as [a Hc | Hc Hf | a Hc Hf Hi Ha | Hc Hf Hi Ha Hcert Hinit
                    | e evs Hc Hf Hfail]; cbn; auto.
  - rewrite Ha in *. destruct Hw as (Hn & H0 & _). subst. auto.
  - rewrite Ha in *. destruct Hw as (Hn & _). rewrite Hn. auto.
Qed.


Lemma do_step_consistent s w : consistent w -> consistent (do_step s w).
Proof.
  intros Hw. destruct s as [E | E | E etat | E |]; cbn [do_step].
  - now apply get_firebase_app_consistent.
  - destruct (firebase_get_vanne_etat_run E w) as (v & evs & -> & _).
    now apply consistent_log, get_firebase_app_consistent.
  - destruct (firebase_set_vanne_etat_run E etat w) as (b & evs & -> & _).
    now apply consistent_log, get_firebase_app_consistent.
  - unfold dashboard_vanne, bind.
    pose proof (get_firebase_app_consistent E w Hw) as H1.
    destruct (get_firebase_app_cases E w) as (r & w1 & Hg & _).
    rewrite Hg in *. cbn [snd] in H1. destruct r as [a|]; [|exact H1].
    destruct (firebase_get_vanne_etat_run E w1) as (v & evs & -> & _).
    now apply get_firebase_app_consistent.
  - now apply consistent_rerun.
Qed.

Lemma run_consistent steps : forall w, consistent w -> consistent (run steps w).
Proof.
  induction steps as [|s steps IH]; intros w Hw; [exact Hw|].
  cbn. apply IH. now apply do_step_consistent.
Qed.

Lemma process_start_consistent : consistent process_start.
Proof. now cbn. Qed.






Lemma get_firebase_app_failed E w e evs :
  _firebase_app w = None -> isfile_credentials E = true ->
  init_failure E w e evs ->
  get_firebase_app E w
  = (Ret None, log evs (set_firebase_error (Some (Str_exn e)) w)).
Proof.
  intros Hc Hf Hfail.
  unfold get_firebase_app, bind, read, try_except. rewrite Hc. cbn. rewrite Hf.
  cbn. destruct Hfail as [e Hi | e Hi Ha Hcert | e Hi Ha Hcert Hinit];
    rewrite Hi; cbn; [now rewrite log_nil| |];
    rewrite Ha; cbn; rewrite Hcert; cbn; [reflexivity|].
  rewrite Hinit. reflexivity.
Qed.

Lemma get_firebase_app_initialized E w :
  _firebase_app w = None -> firebase_admin_apps w = None -> init_succeeds E ->
  get_firebase_app E w
  = (Ret (Some (apps_created w)),
     set_firebase_app (Some (apps_created w))
       (register_app
          (log [Call_initialize_app; Call_Certificate]
             (set_firebase_error None w)))).
Proof.
  intros Hc Ha (Hf & Hi & Hcert & Hinit).
  unfold get_firebase_app, bind, read, try_except. rewrite Hc. cbn. rewrite Hf.
  cbn. rewrite Hi. cbn. rewrite Ha. cbn. rewrite Hcert. cbn. now rewrite Hinit.
Qed.

Lemma init_failure_transport E w w' e evs :
  firebase_admin_apps w' = firebase_admin_apps w ->
  init_failure E w e evs -> init_failure E w' e evs.
Proof.
  intros Heq H. destruct H; [now apply import_raises| |].
  - apply Certificate_raises; congruence.
  - apply initialize_app_raises; congruence.
Qed.

Lemma run_call E Es w :
  run (calls (E :: Es)) w = run (calls Es) (snd (get_firebase_app E w)).
Proof. reflexivity. Qed.

Lemma failed_calls Es : forall w,
  _firebase_app w = None -> Forall (init_fails w) Es ->
  _firebase_app (run (calls Es) w) = None
  /\ firebase_admin_apps (run (calls Es) w) = firebase_admin_apps w
  /\ apps_created (run (calls Es) w) = apps_created w.
Proof.
  induction Es as [|E Es IH]; intros w Hc Hall; [now cbn|].
  inversion Hall as [|? ? (Hf & e & evs & Hfail) Hrest]; subst.
  rewrite run_call, (get_firebase_app_failed E w e evs Hc Hf Hfail). cbn [snd].
  apply (IH (log evs (set_firebase_error (Some (Str_exn e)) w))); [exact Hc|].
  eapply Forall_impl; [|exact Hrest].
  intros E' (Hf' & e' & evs' & Hfail'). split; [exact Hf'|].
  exists e', evs'. now apply (init_failure_transport E' w).
Qed.

(** C10.  A call of [get_firebase_app] in which the initialisation raises
    (the import, [Certificate] or [initialize_app]) returns [None] and caches
    no client; it records the text of the exception.  However many such
    calls follow, none is cached and nothing was initialised.  The next call
    goes through the initialisation again: if it raises again, its library
    calls are made anew and its exception replaces the recorded one; if the
    outside lets it through, it returns a new client. *)
Theorem get_firebase_app_failure_not_cached
    (E : env) (w : world) (e : exn) (evs : list event) :
  _firebase_app w = None ->
  isfile_credentials E = true ->
  init_failure E w e evs ->
  get_firebase_app E w
  = (Ret None, log evs (set_firebase_error (Some (Str_exn e)) w))
  /\ (forall Es, Forall (init_fails w) Es ->
        _firebase_app (run (calls (E :: Es)) w) = None
        /\ apps_created (run (calls (E :: Es)) w) = apps_created w)
  /\ (forall E2 e2 evs2,
        isfile_credentials E2 = true -> init_failure E2 w e2 evs2 ->
        get_firebase_app E2 (snd (get_firebase_app E w))
        = (Ret None,
           log (evs2 ++ evs) (set_firebase_error (Some (Str_exn e2)) w)))
  /\ (forall E2,
        init_succeeds E2 -> firebase_admin_apps w = None ->
        fst (get_firebase_app E2 (snd (get_firebase_app E w)))
        = Ret (Some (apps_created w))).
Proof.
  intros Hc Hf Hfail.
  pose proof (get_firebase_app_failed E w e evs Hc Hf Hfail) as Hrun.
  split; [exact Hrun|]. split; [|split].
  - intros Es Hall.
    destruct (failed_calls (E :: Es) w Hc) as (H1 & _ & H3); [|now split].
    constructor; [|exact Hall]. split; [exact Hf|]. now exists e, evs.
  - intros E2 e2 evs2 Hf2 Hfail2. rewrite Hrun. cbn [snd].
    rewrite (get_firebase_app_failed E2 _ e2 evs2); [|exact Hc|exact Hf2|].
    + unfold log, set_firebase_error. cbn. now rewrite app_assoc.
    + now apply (init_failure_transport E2 w).
  - intros E2 Hok Ha. rewrite Hrun. cbn [snd].
    now rewrite get_firebase_app_initialized.
Qed.

(** A credential file that [Certificate] refuses, then one it accepts. *)
Lemma get_firebase_app_failure_not_cached_witness :
  get_firebase_app (store true (Some ValueError) None (Ret JNull) None)
    process_start
  = (Ret None,
     log [Call_Certificate]
       (set_firebase_error (Some (Str_exn ValueError)) process_start))
  /\ fst (get_firebase_app (store true None None (Ret JNull) None)
            (snd (get_firebase_app
                    (store true (Some ValueError) None (Ret JNull) None)
                    process_start)))
     = Ret (Some 0%nat).
Proof.
  pose proof (get_firebase_app_failure_not_cached
                (store true (Some ValueError) None (Ret JNull) None)
                process_start ValueError [Call_Certificate]
                eq_refl eq_refl
                (Certificate_raises
                   (store true (Some ValueError) None (Ret JNull) None)
                   process_start ValueError eq_refl eq_refl eq_refl))
    as (H1 & _ & _ & H4).
  split; [exact H1|].
  apply (H4 (store true None None (Ret JNull) None)); [|reflexivity].
  repeat split.
Defined.



(** The valve block on a store whose read fails: the flag shown is
    [False]. *)
Example dashboard_vanne_read_fails :
  fst (dashboard_vanne (store true None None (Exc ConnectionError) None)
         process_start) = Ret (Some (JBool false)).
Proof. reflexivity. Qed.



(** A write that goes through. *)
Example firebase_set_vanne_etat_written :
  fst (firebase_set_vanne_etat (store true None None (Ret (JBool true)) None)
         true process_start) = Ret true.
Proof. reflexivity. Qed.

(* ================================================================== *)
(** ** More on normalisation and retrieval *)

Lemma dropna_notna df : forallb notna (dropna df) = true.
Proof.
  unfold dropna. induction df as [|r df IH]; [reflexivity|].
  cbn. destruct (notna r) eqn:Hr; [cbn; now rewrite Hr|exact IH].
Qed.

Lemma process_arrays_frame parse other times air soil w df w' :
  process_arrays parse other times air soil w = (Ret (Some df), w') ->
  df <> [] /\ forallb notna df = true /\ w' = w.
Proof.
  unfold process_arrays, bind, lift, emit, ret.
  destruct (negb (truthy times) || negb (truthy air) || negb (truthy soil));
    [discriminate|].
  destruct (pd_DataFrame parse other times air soil) as [d|e]; [|discriminate].
  destruct (empty (dropna d)) eqn:He; [discriminate|].
  intros H. injection H as <- <-.
  repeat split; [|apply dropna_notna].
  intros Hnil. rewrite Hnil in He. discriminate.
Qed.

Lemma process_meteo_data_some
    (parse : list (option string) -> string -> option (option Z))
    (other : json -> json -> json -> res DataFrame)
    (api_data : json) (w w' : world) (df : DataFrame) :
  process_meteo_data parse other api_data w = (Ret (Some df), w') ->
  df <> [] /\ forallb notna df = true /\ w' = w.
Proof.
  unfold process_meteo_data, try_except, process_error.
  destruct api_data as [| | | | |items];
    try (cbn; discriminate).
  unfold bind at 1. unfold lift at 1. cbn [dict_get].
  destruct (match lookup "hourly" items with Some v => v | None => JObj [] end)
    as [| | | | |hourly]; try (cbn; discriminate).
  unfold bind, lift. cbn [dict_get].
  destruct (process_arrays parse other _ _ _ w) as [[[d|]|e] w1] eqn:Hp;
    try (cbn; discriminate).
  intros H. injection H as <- <-.
  exact (process_arrays_frame _ _ _ _ _ _ _ _ Hp).
Qed.

(** X1.  Whatever the record and whatever pandas does with it, a frame that
    [process_meteo_data] returns has at least one row and no null cell, and
    it comes without a message. *)
Theorem process_meteo_data_frame_invariant
    (parse : list (option string) -> string -> option (option Z))
    (other : json -> json -> json -> res DataFrame)
    (api_data : json) (w w' : world) (df : DataFrame) :
  process_meteo_data parse other api_data w = (Ret (Some df), w') ->
  df <> [] /\ forallb notna df = true /\ w' = w.
Proof. apply process_meteo_data_some. Qed.

Lemma process_meteo_data_frame_invariant_witness :
  [ {| datetime := Some 28620000; humidity_air := Some 64%Q;
       humidity_soil := Some 0.33%Q |};
    {| datetime := Some 28620060; humidity_air := Some 63%Q;
       humidity_soil := Some 0.32%Q |} ] <> []
  /\ forallb notna
       [ {| datetime := Some 28620000; humidity_air := Some 64%Q;
            humidity_soil := Some 0.33%Q |};
         {| datetime := Some 28620060; humidity_air := Some 63%Q;
            humidity_soil := Some 0.32%Q |} ] = true
  /\ process_start = process_start.
Proof.
  apply (process_meteo_data_frame_invariant (reader_at 0) refuse ordered_record
           process_start process_start).
  reflexivity.
Defined.

Lemma to_datetime_in_instants parse column tc :
  forallb (parses parse column) tc = true ->
  to_datetime_in parse column tc = Ret (map (instant parse column) tc).
Proof.
  induction tc as [|[s|] tc IH]; cbn; intros H; [reflexivity| |].
  - destruct (parse column s); [|discriminate]. cbn in H. now rewrite IH.
  - now rewrite IH.
Qed.

Lemma to_datetime_instants parse tc :
  forallb (parses parse tc) tc = true ->
  to_datetime parse tc = Ret (map (instant parse tc) tc).
Proof. apply to_datetime_in_instants. Qed.

Lemma dropna_zip_rows d : forall a s,
  length a = length d -> length s = length d ->
  dropna (zip_rows d a s) = complete_rows d a s.
Proof.
  induction d as [|c d IH]; intros [|x a] [|y s] Ha Hs; try discriminate;
    [reflexivity|].
  cbn in Ha, Hs. injection Ha as Ha. injection Hs as Hs.
  cbn. unfold notna. cbn. unfold dropna in IH.
  destruct c, x, y; cbn; now rewrite IH.
Qed.

Lemma complete_rows_length d : forall a s,
  (length (complete_rows d a s) <= length d)%nat.
Proof.
  induction d as [|c d IH]; intros a s; [destruct a, s; cbn; lia|].
  destruct a as [|x a], s as [|y s]; destruct c as [t|];
    try destruct x; try destruct y; cbn; try lia;
    specialize (IH a s); lia.
Qed.

(** X2.  On a record whose three arrays are non-empty columns of one
    length, the timestamps nulls or strings that [pd.to_datetime], reading
    the column as a whole, takes for an instant or for NaT,
    [process_meteo_data] keeps exactly the positions at which the timestamp
    is an instant and neither value is null, in the order of the arrays: it
    returns them as the frame, never more rows than the arrays have entries,
    and when there is no such position it returns [None] with "Aucune donnée
    valide". *)
Theorem process_meteo_data_drops_null_rows
    (parse : list (option string) -> string -> option (option Z))
    (other : json -> json -> json -> res DataFrame)
    (api_data times air soil : json)
    (tc : list (option string)) (ac sc : list (option Q)) (w : world) :
  hourly_arrays api_data = Some (times, air, soil) ->
  time_column times = Some tc ->
  num_column air = Some ac ->
  num_column soil = Some sc ->
  tc <> [] ->
  length ac = length tc ->
  length sc = length tc ->
  forallb (parses parse tc) tc = true ->
  process_meteo_data parse other api_data w
  = (if empty (complete_rows (map (instant parse tc) tc) ac sc)
     then (Ret None, log [St_warning Aucune_donnee_valide] w)
     else (Ret (Some (complete_rows (map (instant parse tc) tc) ac sc)), w))
  /\ (length (complete_rows (map (instant parse tc) tc) ac sc) <= length tc)%nat.
Proof.
  intros Harr Ht Ha Hs Hne Hla Hls Hp.
  split.
  2:{ rewrite <- (length_map (instant parse tc) tc). apply complete_rows_length. }
  rewrite (process_meteo_data_arrays _ _ _ _ _ _ Harr).
  unfold process_arrays, pd_DataFrame. rewrite Ht, Ha, Hs.
  destruct (time_column_array _ _ Ht) as (lt & -> & Hlt).
  destruct (num_column_array _ _ Ha) as (la & -> & Hla').
  destruct (num_column_array _ _ Hs) as (ls & -> & Hls').
  rewrite (to_datetime_instants _ _ Hp).
  destruct tc as [|c0 tc]; [contradiction|].
  destruct lt as [|? ?]; [discriminate|].
  destruct ac as [|a0 ac]; [discriminate|].
  destruct la as [|? ?]; [discriminate|].
  destruct sc as [|s0 sc]; [discriminate|].
  destruct ls as [|? ?]; [discriminate|].
  cbn [truthy negb orb]. unfold try_except, bind, lift, rbind.
  rewrite length_map, Hla, Hls, !Nat.eqb_refl. cbn [andb].
  rewrite dropna_zip_rows by (rewrite length_map; assumption).
  now destruct (empty _).
Qed.

(** A null in the second and in the fourth hour and an empty timestamp in
    the fifth: two rows are kept. *)
Lemma process_meteo_data_drops_null_rows_witness :
  process_meteo_data (reader_at 0) refuse gappy_record process_start
  = (Ret (Some [ {| datetime := Some 28620000; humidity_air := Some 64%Q;
                    humidity_soil := Some 0.33%Q |};
                 {| datetime := Some 28620120; humidity_air := Some 61%Q;
                    humidity_soil := Some 0.31%Q |} ]), process_start)
  /\ (2 <= 5)%nat.
Proof.
  apply (process_meteo_data_drops_null_rows (reader_at 0) refuse gappy_record
           (JArr [JStr "2024-06-01T00:00"; JStr "2024-06-01T01:00";
                  JStr "2024-06-01T02:00"; JNull; JStr ""])
           (JArr [JNum 64; JNull; JNum 61; JNum 60; JNum 59])
           (JArr [JNum 0.33; JNum 0.32; JNum 0.31; JNum 0.30; JNum 0.29])
           [Some "2024-06-01T00:00"; Some "2024-06-01T01:00";
            Some "2024-06-01T02:00"; None; Some ""]
           [Some 64%Q; None; Some 61%Q; Some 60%Q; Some 59%Q]
           [Some 0.33%Q; Some 0.32%Q; Some 0.31%Q; Some 0.30%Q; Some 0.29%Q]
           process_start);
    try reflexivity.
  discriminate.
Defined.

Ltac fetch_failed :=
  eexists JNull, [_]; split; [reflexivity|];
  split; [cbn; lia|]; split; [reflexivity|];
  intros Hv; now contradiction Hv.

Lemma fetch_open_meteo_data_run
    (E : env) (la lo : Q) (start_date end_date : date) (w : world) :
  exists v evs,
    fetch_open_meteo_data E la lo start_date end_date w
    = (Ret v,
       log (evs ++ [Call_requests_get
                      (open_meteo_request la lo start_date end_date)]) w)
    /\ (length evs <= 1)%nat
    /\ existsb is_request evs = false
    /\ (v <> JNull ->
        evs = [] /\ weather_data v
        /\ exists resp,
             requests_get E (open_meteo_request la lo start_date end_date)
             = Ret resp
             /\ raise_for_status resp = Ret tt /\ body resp = Ret v).
Proof.
  unfold fetch_open_meteo_data, try_except, bind, lift, emit.
  destruct (requests_get E _) as [resp|e] eqn:Hget.
  2:{ destruct e; cbn; try fetch_failed.
      destruct (status_code =? 400); cbn; fetch_failed. }
  destruct (raise_for_status resp) as [[]|e] eqn:Hst.
  2:{ destruct e; cbn; try fetch_failed.
      destruct (status_code =? 400); cbn; fetch_failed. }
  destruct (body resp) as [data|e] eqn:Hbody.
  2:{ destruct e; cbn; try fetch_failed.
      destruct (status_code =? 400); cbn; fetch_failed. }
  destruct (py_in "hourly" data) as [[|]|e] eqn:Hin; cbn [negb].
  2:{ cbn. fetch_failed. }
  2:{ destruct data; cbn in Hin; try discriminate;
        injection Hin as <-; cbn; fetch_failed. }
  destruct data as [| | |s|l|items]; try discriminate;
    cbn [dict_get]; [cbn; fetch_failed|cbn; fetch_failed|].
  cbn in Hin.
  destruct (lookup "hourly" items) as [hourly|] eqn:Hk; [|discriminate].
  destruct hourly as [| | | | |hourly]; cbn [dict_get]; try (cbn; fetch_failed).
  destruct (lookup "relative_humidity_2m" hourly) as [air|] eqn:Ha;
    [|cbn; fetch_failed].
  destruct (truthy air) eqn:Hta; [|cbn; fetch_failed].
  destruct (lookup "soil_moisture_0_to_1cm" hourly) as [soil|] eqn:Hs;
    [|cbn; fetch_failed].
  destruct (truthy soil) eqn:Hts; [|cbn; fetch_failed].
  cbn. exists (JObj items), [].
  split; [reflexivity|]. split; [cbn; lia|]. split; [reflexivity|].
  intros _. split; [reflexivity|]. split.
  - exists items, hourly, air, soil. now repeat split.
  - now exists resp.
Qed.

(** X3.  Whatever the outside answers, [fetch_open_meteo_data] raises
    nothing, sends exactly one request (it never retries) and leaves at most
    one message.  When its result is not [None] it left no message, and the
    result is the body of the response as it came: an object with an
    ["hourly"] object in which both variables are there and true. *)
Theorem fetch_open_meteo_data_outcome
    (E : env) (la lo : Q) (start_date end_date : date) (w : world) :
  exists v evs,
    fetch_open_meteo_data E la lo start_date end_date w
    = (Ret v,
       log (evs ++ [Call_requests_get
                      (open_meteo_request la lo start_date end_date)]) w)
    /\ (length evs <= 1)%nat
    /\ existsb is_request evs = false
    /\ (v <> JNull ->
        evs = [] /\ weather_data v
        /\ exists resp,
             requests_get E (open_meteo_request la lo start_date end_date)
             = Ret resp
             /\ raise_for_status resp = Ret tt /\ body resp = Ret v).
Proof. apply fetch_open_meteo_data_run. Qed.

Lemma fetch_open_meteo_data_success E la lo start_date end_date w resp v :
  requests_get E (open_meteo_request la lo start_date end_date) = Ret resp ->
  raise_for_status resp = Ret tt ->
  body resp = Ret v ->
  weather_data v ->
  fetch_open_meteo_data E la lo start_date end_date w
  = (Ret v,
     log [Call_requests_get (open_meteo_request la lo start_date end_date)] w).
Proof.
  intros Hget Hst Hbody (items & hourly & air & soil & -> & Hk & Ha & Hta & Hs & Hts).
  unfold fetch_open_meteo_data, try_except, bind, lift, emit.
  rewrite Hget, Hst, Hbody. cbn [py_in]. rewrite Hk. cbn [negb dict_get].
  rewrite Hk. cbn [dict_get]. rewrite Ha, Hta. cbn [negb]. now rewrite Hs, Hts.
Qed.

Lemma fetch_open_meteo_data_fails E la lo start_date end_date f w :
  fails E (open_meteo_request la lo start_date end_date) f ->
  fetch_open_meteo_data E la lo start_date end_date w
  = (Ret JNull,
     log [report f;
          Call_requests_get (open_meteo_request la lo start_date end_date)] w).
Proof.
  intros H.
  unfold fetch_open_meteo_data, try_except, bind, lift, emit.
  destruct H as [Hget | resp Hget Hst | resp Hget Hst Hne | e Hget He
                | resp items Hget Hst Hbody Hk
                | resp items hourly Hget Hst Hbody Hk Hv
                | e Hget He | resp e Hget Hst Hbody He
                | resp data e Hget Hst Hbody Hin
                | resp items hourly e Hget Hst Hbody Hk Hh
                | resp e Hget Hst Hbody He
                | resp data e Hget Hst Hbody Hin Hd];
    rewrite Hget.
  - reflexivity.
  - rewrite raise_for_status_error by lia. rewrite Hst. reflexivity.
  - rewrite raise_for_status_error by lia. cbn.
    apply Z.eqb_neq in Hne. now rewrite Hne.
  - now destruct He; subst e.
  - rewrite Hst, Hbody. cbn. now rewrite Hk.
  - rewrite Hst, Hbody. cbn [py_in]. rewrite Hk.
    cbn [negb dict_get]. rewrite Hk.
    destruct Hv as [Hv | Hv].
    + destruct (absent_or_empty_falsy _ _ Hv) as (v & -> & ->). reflexivity.
    + destruct (dict_get (JObj hourly) "relative_humidity_2m" JNull) as [v|] eqn:Ha;
        [|discriminate].
      destruct (truthy v); [|reflexivity].
      destruct (absent_or_empty_falsy _ _ Hv) as (v' & -> & ->). reflexivity.
  - destruct e; try discriminate; reflexivity.
  - rewrite Hst, Hbody. destruct e; try discriminate; reflexivity.
  - rewrite Hst, Hbody. cbn [ret]. rewrite Hin.
    destruct data; try discriminate; injection Hin as <-; reflexivity.
  - rewrite Hst, Hbody. cbn [py_in]. rewrite Hk. cbn [negb dict_get].
    rewrite Hk, Hh.
    destruct hourly; try discriminate; injection Hh as <-; reflexivity.
  - rewrite Hst, Hbody. now destruct He as [-> | [-> | ->]].
  - rewrite Hst, Hbody. cbn [ret]. rewrite Hin. cbn [negb]. rewrite Hd.
    destruct data; try discriminate; injection Hd as <-; reflexivity.
Qed.

Lemma process_meteo_data_complete_frame
    (parse : list (option string) -> string -> option (option Z))
    (other : json -> json -> json -> res DataFrame)
    (api_data : json) (ts : list string) (air soil : list Q) (zs : list Z)
    (w : world) :
  hourly_arrays api_data
    = Some (JArr (map JStr ts), JArr (map JNum air), JArr (map JNum soil)) ->
  ts <> [] ->
  length air = length ts ->
  length soil = length ts ->
  map (parse (map Some ts)) ts = map (fun z => Some (Some z)) zs ->
  exists df,
    process_meteo_data parse other api_data w = (Ret (Some df), w) /\
    length df = length ts /\
    map datetime df = map Some zs /\
    map humidity_air df = map Some air /\
    map humidity_soil df = map Some soil /\
    forallb notna df = true /\
    ascending (datetimes df) = ascending zs.
Proof.
  intros Harr Hne Ha Hs Hp.
  assert (Hlen : length zs = length ts).
  { rewrite <- (length_map (fun z => Some (Some z)) zs), <- Hp.
    apply length_map. }
  rewrite <- Hlen in Ha, Hs.
  destruct (zip_rows_complete zs air soil Ha Hs)
    as (Hdrop & Hl & Hd & Hha & Hhs & Hnn & Hdt).
  exists (zip_rows (map Some zs) (map Some air) (map Some soil)).
  split; [|rewrite Hdt, <- Hlen; now repeat split].
  rewrite (process_meteo_data_arrays _ _ _ _ _ _ Harr).
  unfold process_arrays, pd_DataFrame.
  rewrite time_column_strings, !num_column_numbers, (to_datetime_parsed _ _ _ Hp).
  destruct ts as [|t ts]; [contradiction|].
  destruct zs as [|z zs]; [discriminate|].
  destruct air as [|qa air]; [discriminate|].
  destruct soil as [|qs soil]; [discriminate|].
  unfold try_except, bind, lift, rbind.
  rewrite !length_map, Ha, Hs, !Nat.eqb_refl. cbn [truthy map negb orb andb].
  cbn [map] in Hdrop. rewrite Hdrop. reflexivity.
Qed.

Lemma process_meteo_data_none parse other w :
  process_meteo_data parse other JNull w = (Ret None, w).
Proof. reflexivity. Qed.

(** X4.  Loading the data (lines 479-481) when the request fails in one of
    the ways of [fails]: the result is [None], nothing is raised, and the
    failure is on the page once, in the words of [fetch_open_meteo_data];
    [process_meteo_data] adds nothing to it. *)
Theorem load_data_failure_reported_once
    (parse : list (option string) -> string -> option (option Z))
    (other : json -> json -> json -> res DataFrame)
    (E : env) (la lo : Q) (start_date end_date : date) (f : failure)
    (w : world) :
  fails E (open_meteo_request la lo start_date end_date) f ->
  load_data parse other E la lo start_date end_date w
  = (Ret None,
     log [report f;
          Call_requests_get (open_meteo_request la lo start_date end_date)] w).
Proof.
  intros H. unfold load_data, bind.
  rewrite (fetch_open_meteo_data_fails E la lo start_date end_date f w H).
  apply process_meteo_data_none.
Qed.

(** A server answering 503. *)
Lemma load_data_failure_reported_once_witness :
  load_data (reader_at 0) refuse
    (answering (Ret {| status := 503; body := Exc JSONDecodeError |})) 47.5 2
    {| year := 2024; month := 6; day := 1 |}
    {| year := 2024; month := 6; day := 2 |} process_start
  = (Ret None,
     log [St_error (Erreur_HTTP 503);
          Call_requests_get
            (open_meteo_request 47.5 2 {| year := 2024; month := 6; day := 1 |}
               {| year := 2024; month := 6; day := 2 |})] process_start).
Proof.
  apply (load_data_failure_reported_once (reader_at 0) refuse
           (answering (Ret {| status := 503; body := Exc JSONDecodeError |}))
           47.5 2 {| year := 2024; month := 6; day := 1 |}
           {| year := 2024; month := 6; day := 2 |} (Http_status 503)
           process_start).
  apply (fails_http _ _ {| status := 503; body := Exc JSONDecodeError |});
    [reflexivity | cbn; lia | discriminate].
Defined.

Lemma iloc_last_last (df : DataFrame) (d : row) :
  df <> [] -> iloc_last df = Ret (last df d).
Proof.
  intros H. unfold iloc_last.
  rewrite (app_removelast_last d H) at 1. now rewrite rev_app_distr.
Qed.

Lemma last_map_some {A B} (f : A -> option B) (l : list A) (m : list B) (a : A) (b : B) :
  map f l = map Some m -> l <> [] -> f (last l a) = Some (last m b).
Proof.
  revert m. induction l as [|x l IH]; intros [|y m] H Hne; try discriminate;
    [contradiction|].
  cbn in H. injection H as Hx Hl.
  destruct l as [|x' l]; destruct m as [|y' m]; try discriminate; [exact Hx|].
  apply (IH (y' :: m) Hl). discriminate.
Qed.

(** X5.  From the request to the indicators: when the network answers a
    record whose three arrays are non-empty and of one length, the values
    numbers and the timestamps strings that [pd.to_datetime], reading the
    column as a whole, takes for instants, loading sends one request, shows
    nothing and gives a frame with one row for each entry; the indicators of
    the page are then read from its last row, that is from the last entry of
    each array, and nothing is raised. *)
Theorem load_data_complete_record
    (parse : list (option string) -> string -> option (option Z))
    (other : json -> json -> json -> res DataFrame)
    (E : env) (la lo : Q) (start_date end_date : date) (resp : response)
    (api_data : json) (ts : list string) (air soil : list Q) (zs : list Z)
    (w : world) (p : page) :
  requests_get E (open_meteo_request la lo start_date end_date) = Ret resp ->
  raise_for_status resp = Ret tt ->
  body resp = Ret api_data ->
  hourly_arrays api_data
    = Some (JArr (map JStr ts), JArr (map JNum air), JArr (map JNum soil)) ->
  ts <> [] ->
  length air = length ts ->
  length soil = length ts ->
  map (parse (map Some ts)) ts = map (fun z => Some (Some z)) zs ->
  exists df latest_data,
    load_data parse other E la lo start_date end_date w
    = (Ret (Some df),
       log [Call_requests_get (open_meteo_request la lo start_date end_date)] w)
    /\ length df = length ts
    /\ indicators (Some df) p = (Ret (Some latest_data), p)
    /\ datetime latest_data = Some (last zs 0)
    /\ humidity_air latest_data = Some (last air 0%Q)
    /\ humidity_soil latest_data = Some (last soil 0%Q).
Proof.
  intros Hget Hst Hbody Harr Hne Ha Hs Hp.
  destruct (process_meteo_data_complete_frame parse other api_data ts air soil zs
              (log [Call_requests_get
                      (open_meteo_request la lo start_date end_date)] w)
              Harr Hne Ha Hs Hp)
    as (df & Hrun & Hlen & Hd & Hha & Hhs & _ & _).
  assert (Hdf : df <> []).
  { intros ->. destruct ts; [contradiction|discriminate]. }
  pose (d0 := {| datetime := None; humidity_air := None; humidity_soil := None |}).
  exists df, (last df d0). repeat split.
  - unfold load_data, bind.
    rewrite (fetch_open_meteo_data_success E la lo start_date end_date w resp
               api_data Hget Hst Hbody); [exact Hrun|].
    unfold hourly_arrays in Harr.
    destruct api_data as [| | | | |items]; try discriminate.
    destruct (lookup "hourly" items) as [[| | | | |hourly]|] eqn:Hk;
      try discriminate.
    destruct (lookup "time" hourly); try discriminate.
    destruct (lookup "relative_humidity_2m" hourly) as [a|] eqn:Hka;
      try discriminate.
    destruct (lookup "soil_moisture_0_to_1cm" hourly) as [s|] eqn:Hks;
      try discriminate.
    injection Harr as _ -> ->.
    exists items, hourly, (JArr (map JNum air)), (JArr (map JNum soil)).
    repeat split; try assumption.
    + destruct air; [destruct ts; [contradiction|discriminate]|reflexivity].
    + destruct soil; [destruct ts; [contradiction|discriminate]|reflexivity].
  - exact Hlen.
  - unfold indicators, pbind, plift, pret.
    destruct df as [|r df]; [contradiction|]. cbn [empty negb].
    now rewrite (iloc_last_last (r :: df) d0).
  - apply (last_map_some datetime df zs d0 0 Hd Hdf).
  - apply (last_map_some humidity_air df air d0 0%Q Hha Hdf).
  - apply (last_map_some humidity_soil df soil d0 0%Q Hhs Hdf).
Qed.

(** Two hours answered by the network. *)
Lemma load_data_complete_record_witness :
  exists df latest_data,
    load_data (reader_at 0) refuse (answering (Ret (ok_response ordered_record)))
      47.5 2 {| year := 2024; month := 6; day := 1 |}
      {| year := 2024; month := 6; day := 2 |} process_start
    = (Ret (Some df),
       log [Call_requests_get
              (open_meteo_request 47.5 2
                 {| year := 2024; month := 6; day := 1 |}
                 {| year := 2024; month := 6; day := 2 |})] process_start)
    /\ length df = 2%nat
    /\ indicators (Some df)
         {| backend := process_start; latitude := 47.5; longitude := 2;
            address_query := ""; address_suggestions := []; shown := [] |}
       = (Ret (Some latest_data),
          {| backend := process_start; latitude := 47.5; longitude := 2;
             address_query := ""; address_suggestions := []; shown := [] |})
    /\ datetime latest_data = Some 28620060
    /\ humidity_air latest_data = Some 63%Q
    /\ humidity_soil latest_data = Some 0.32%Q.
Proof.
  apply (load_data_complete_record (reader_at 0) refuse
           (answering (Ret (ok_response ordered_record))) 47.5 2
           {| year := 2024; month := 6; day := 1 |}
           {| year := 2024; month := 6; day := 2 |}
           (ok_response ordered_record) ordered_record
           ["2024-06-01T00:00"; "2024-06-01T01:00"]
           [64%Q; 63%Q] [0.33%Q; 0.32%Q] [28620000; 28620060] process_start
           {| backend := process_start; latitude := 47.5; longitude := 2;
              address_query := ""; address_suggestions := []; shown := [] |});
    try reflexivity.
  discriminate.
Defined.

(** X6.  The lower part of the page on whatever [process_meteo_data]
    returned: it raises nothing; with a frame it reads the indicators from
    the last row and shows no error, so [df.iloc[-1]] never fails and the
    branch of line 527 is decided by [df is not None] alone; with [None] it
    shows "Impossible de charger les données". *)
Theorem indicators_of_process_meteo_data
    (parse : list (option string) -> string -> option (option Z))
    (other : json -> json -> json -> res DataFrame)
    (api_data : json) (w w' : world) (r : option DataFrame) (p : page) :
  process_meteo_data parse other api_data w = (Ret r, w') ->
  match r with
  | Some df =>
      exists rows latest_data,
        df = (rows ++ [latest_data])%list
        /\ indicators r p = (Ret (Some latest_data), p)
  | None =>
      indicators r p
      = (Ret None, show_events [Page_error Chargement_impossible] p)
  end.
Proof.
  intros H. destruct r as [df|]; [|reflexivity].
  destruct (process_meteo_data_some _ _ _ _ _ _ H) as (Hne & _ & _).
  pose (d0 := {| datetime := None; humidity_air := None; humidity_soil := None |}).
  exists (removelast df), (last df d0). split.
  - now apply app_removelast_last.
  - unfold indicators, pbind, plift, pret.
    destruct df as [|r0 df]; [contradiction|]. cbn [empty negb].
    now rewrite (iloc_last_last (r0 :: df) d0).
Qed.

(** The gappy record: the indicators are those of its third hour. *)
Lemma indicators_of_process_meteo_data_witness :
  exists rows latest_data,
    [ {| datetime := Some 28620000; humidity_air := Some 64%Q;
         humidity_soil := Some 0.33%Q |};
      {| datetime := Some 28620120; humidity_air := Some 61%Q;
         humidity_soil := Some 0.31%Q |} ] = (rows ++ [latest_data])%list
    /\ indicators
         (Some [ {| datetime := Some 28620000; humidity_air := Some 64%Q;
                    humidity_soil := Some 0.33%Q |};
                 {| datetime := Some 28620120; humidity_air := Some 61%Q;
                    humidity_soil := Some 0.31%Q |} ]) first_page
       = (Ret (Some latest_data), first_page).
Proof.
  apply (indicators_of_process_meteo_data (reader_at 0) refuse gappy_record
           process_start process_start
           (Some [ {| datetime := Some 28620000; humidity_air := Some 64%Q;
                      humidity_soil := Some 0.33%Q |};
                   {| datetime := Some 28620120; humidity_air := Some 61%Q;
                      humidity_soil := Some 0.31%Q |} ]) first_page).
  reflexivity.
Defined.

(* ================================================================== *)
(** ** More on the address lookup *)

Lemma well_formed_suggestion_of fos c :
  well_formed fos c = true -> exists s, suggestion_of fos c = Ret s.
Proof.
  unfold suggestion_of, well_formed, convertible.
  destruct c as [| | | | |items]; try discriminate.
  cbn [dict_get subscript rbind].
  destruct (lookup "lat" items) as [la|]; [|discriminate].
  destruct (lookup "lon" items) as [lo|]; [|discriminate].
  destruct (py_float fos la) as [a|] eqn:Hla; [|discriminate].
  destruct (py_float fos lo) as [b|] eqn:Hlo; [|discriminate].
  intros _. eexists. unfold rbind. rewrite Hla, Hlo. reflexivity.
Qed.

Lemma append_suggestions_all fos results : forall acc,
  forallb (well_formed fos) results = true ->
  exists l,
    append_suggestions fos results acc = Ret (acc ++ l)%list
    /\ Forall2 (fun c s => suggestion_of fos c = Ret s) results l.
Proof.
  induction results as [|c results IH]; intros acc H.
  - exists []. split; [now rewrite app_nil_r | constructor].
  - cbn in H. apply andb_prop in H as [Hc Hrest].
    destruct (well_formed_suggestion_of fos c Hc) as [s Hs].
    destruct (IH (acc ++ [s])%list Hrest) as (l & Hl & Hall).
    exists (s :: l). split; [|now constructor].
    cbn. rewrite Hs. cbn. rewrite Hl. now rewrite <- app_assoc.
Qed.

Lemma append_suggestions_ret fos results : forall acc l,
  append_suggestions fos results acc = Ret l ->
  forallb (well_formed fos) results = true
  /\ length l = (length acc + length results)%nat.
Proof.
  induction results as [|c results IH]; intros acc l H; cbn in H.
  - injection H as <-. cbn. split; [reflexivity|lia].
  - destruct (suggestion_of fos c) as [s|e] eqn:Hc; [|discriminate].
    cbn in H. destruct (IH _ _ H) as [Hall Hlen].
    cbn. rewrite (suggestion_of_well_formed fos c s Hc), Hall.
    split; [reflexivity|]. rewrite Hlen, length_app. cbn. lia.
Qed.

(** X7.  When the lookup succeeds and every candidate of the list it
    answers has a ["lat"] and a ["lon"] that [float] accepts,
    [search_address_suggestions] returns one suggestion for each candidate,
    in the order of the response: the [i]-th is the dict built from the
    [i]-th candidate.  An empty list gives the empty list. *)
Theorem search_address_suggestions_all_well_formed
    (float_of_string : string -> option Q) (E : env) (query : string)
    (limit : Z) (w : world) (resp : response) (results : list json) :
  (2 <= str_len query)%nat ->
  requests_get E (nominatim_request query limit) = Ret resp ->
  raise_for_status resp = Ret tt ->
  body resp = Ret (JArr results) ->
  forallb (well_formed float_of_string) results = true ->
  exists l,
    search_address_suggestions float_of_string E query limit w
    = (Ret l, log [Call_requests_get (nominatim_request query limit)] w)
    /\ length l = length results
    /\ Forall2 (fun c s => suggestion_of float_of_string c = Ret s) results l.
Proof.
  intros Hq Hget Hst Hbody Hall.
  destruct (append_suggestions_all float_of_string results [] Hall)
    as (l & Hl & HF).
  exists l. split; [|split; [symmetry; exact (Forall2_length HF) | exact HF]].
  unfold search_address_suggestions. rewrite (long_query_guard query Hq).
  unfold try_except, bind, lift, emit. rewrite Hget, Hst, Hbody.
  destruct results as [|c0 results].
  - inversion HF; subst. reflexivity.
  - cbn [truthy py_len py_iter ret].
    replace (0 <? Z.of_nat (length (c0 :: results))) with true
      by (symmetry; apply Z.ltb_lt; cbn [length]; lia).
    now rewrite Hl.
Qed.

(** Two candidates, both with coordinates. *)
Lemma search_address_suggestions_all_well_formed_witness :
  exists l,
    search_address_suggestions decimal
      (answering (Ret (ok_response (JArr [paris; paris])))) "Par" 10
      process_start
    = (Ret l, log [Call_requests_get (nominatim_request "Par" 10)] process_start)
    /\ length l = 2%nat
    /\ Forall2 (fun c s => suggestion_of decimal c = Ret s) [paris; paris] l.
Proof.
  apply (search_address_suggestions_all_well_formed decimal
           (answering (Ret (ok_response (JArr [paris; paris])))) "Par" 10
           process_start (ok_response (JArr [paris; paris])) [paris; paris]);
    try reflexivity.
  cbn. lia.
Defined.

Lemma append_suggestions_strings fos l acc r :
  Forall (fun v => exists s, v = JStr s) l ->
  append_suggestions fos l acc = Ret r -> l = [].
Proof.
  intros Hall H. apply append_suggestions_ret in H as [H _].
  destruct l as [|v l]; [reflexivity|].
  inversion Hall as [|? ? [s ->] _]; subst. discriminate.
Qed.

Lemma chars_strings s : Forall (fun v => exists c, v = JStr c) (chars s).
Proof. unfold chars. induction (str_chars s); cbn; constructor; eauto. Qed.

Lemma keys_strings (items : list (string * json)) :
  Forall (fun v => exists c, v = JStr c) (map (fun kv => JStr (fst kv)) items).
Proof. induction items; cbn; constructor; eauto. Qed.

Ltac search_failed w :=
  exists []; split; [reflexivity | intros Hl; now contradiction Hl].

Lemma search_address_suggestions_run
    (float_of_string : string -> option Q) (E : env) (query : string)
    (limit : Z) (w : world) :
  (2 <= str_len query)%nat ->
  exists l,
    search_address_suggestions float_of_string E query limit w
    = (Ret l, log [Call_requests_get (nominatim_request query limit)] w)
    /\ (l <> [] ->
        exists resp results,
          requests_get E (nominatim_request query limit) = Ret resp
          /\ raise_for_status resp = Ret tt
          /\ body resp = Ret (JArr results)
          /\ forallb (well_formed float_of_string) results = true
          /\ length l = length results).
Proof.
  intros Hq. unfold search_address_suggestions.
  rewrite (long_query_guard query Hq).
  unfold try_except, bind, lift, emit.
  destruct (requests_get E _) as [resp|e] eqn:Hget.
  2:{ destruct e; search_failed w. }
  destruct (raise_for_status resp) as [[]|e] eqn:Hst.
  2:{ destruct e; search_failed w. }
  destruct (body resp) as [data|e] eqn:Hbody.
  2:{ destruct e; search_failed w. }
  destruct (truthy data) eqn:Ht; [|search_failed w].
  destruct data as [|b|q|s|results|items]; cbn [py_len ret];
    try search_failed w.
  - destruct (0 <? Z.of_nat (str_len s)); [|search_failed w]. cbn [py_iter].
    destruct (append_suggestions _ (chars s) []) as [l|e] eqn:Ha.
    + pose proof (append_suggestions_strings _ _ _ _ (chars_strings s) Ha)
        as Hnil.
      rewrite Hnil in Ha. injection Ha as <-. search_failed w.
    + destruct e; search_failed w.
  - destruct results as [|c0 results]; [discriminate|]. cbn [py_iter].
    replace (0 <? Z.of_nat (length (c0 :: results))) with true
      by (symmetry; apply Z.ltb_lt; cbn [length]; lia).
    destruct (append_suggestions _ (c0 :: results) []) as [l|e] eqn:Ha.
    + exists l. split; [reflexivity|]. intros _.
      destruct (append_suggestions_ret _ _ _ _ Ha) as [Hall Hlen].
      now exists resp, (c0 :: results).
    + destruct e; search_failed w.
  - destruct items as [|kv items]; [discriminate|]. cbn [py_iter].
    replace (0 <? Z.of_nat (length (kv :: items))) with true
      by (symmetry; apply Z.ltb_lt; cbn [length]; lia).
    destruct (append_suggestions _ (map _ (kv :: items)) []) as [l|e] eqn:Ha.
    + pose proof (append_suggestions_strings _ _ _ _
                    (keys_strings (kv :: items)) Ha) as Hnil.
      discriminate Hnil.
    + destruct e; search_failed w.
Qed.

(** X8.  For a query of two characters or more, whatever the outside
    answers, [search_address_suggestions] raises nothing and sends exactly
    one request; and it returns all or nothing: a non-empty result only when
    the response is a list all of whose candidates are well formed, with one
    suggestion for each, and the empty list in every other case. *)
Theorem search_address_suggestions_all_or_nothing
    (float_of_string : string -> option Q) (E : env) (query : string)
    (limit : Z) (w : world) :
  (2 <= str_len query)%nat ->
  exists l,
    search_address_suggestions float_of_string E query limit w
    = (Ret l, log [Call_requests_get (nominatim_request query limit)] w)
    /\ (l <> [] ->
        exists resp results,
          requests_get E (nominatim_request query limit) = Ret resp
          /\ raise_for_status resp = Ret tt
          /\ body resp = Ret (JArr results)
          /\ forallb (well_formed float_of_string) results = true
          /\ length l = length results).
Proof. apply search_address_suggestions_run. Qed.

(** The network down. *)
Lemma search_address_suggestions_all_or_nothing_witness :
  exists l,
    search_address_suggestions decimal (answering (Exc ConnectionError))
      "Orl" 10 process_start
    = (Ret l, log [Call_requests_get (nominatim_request "Orl" 10)] process_start)
    /\ (l <> [] ->
        exists resp results,
          Exc ConnectionError = Ret resp
          /\ raise_for_status resp = Ret tt
          /\ body resp = Ret (JArr results)
          /\ forallb (well_formed decimal) results = true
          /\ length l = length results).
Proof.
  apply (search_address_suggestions_all_or_nothing decimal
           (answering (Exc ConnectionError)) "Orl" 10 process_start).
  cbn. lia.
Defined.

Lemma geocode_request_run fos E address w :
  exists r,
    geocode_request fos E address w
    = (r, log [Call_requests_get (nominatim_request address 1)] w).
Proof.
  unfold geocode_request, bind, lift, emit, ret.
  destruct (requests_get E _) as [resp|e]; [|eexists; reflexivity].
  destruct (raise_for_status resp) as [[]|e]; [|eexists; reflexivity].
  destruct (body resp) as [data|e]; [|eexists; reflexivity].
  destruct (truthy data); [|eexists; reflexivity].
  destruct (py_len data) as [n|e]; [|eexists; reflexivity].
  destruct (0 <? n); [|eexists; reflexivity].
  destruct (item0 data) as [result|e]; [|eexists; reflexivity].
  destruct (location_of fos address result); eexists; reflexivity.
Qed.

Lemma geocode_address_run fos E address p :
  geocode_address fos E address p
  = match fst (geocode_request fos E address (backend p)) with
    | Ret r =>
        (Ret r,
         set_backend
           (log [Call_requests_get (nominatim_request address 1)] (backend p)) p)
    | Exc e =>
        (Ret None,
         show_events [Sidebar_error (geocode_error e)]
           (set_backend
              (log [Call_requests_get (nominatim_request address 1)]
                 (backend p)) p))
    end.
Proof.
  unfold geocode_address, ptry_except, call.
  destruct (geocode_request_run fos E address (backend p)) as [r ->].
  now destruct r.
Qed.

(** X9.  Whatever the outside answers, [geocode_address] raises nothing,
    sends exactly one request, and touches neither the coordinates nor the
    suggestions of the session.  It shows at most one text, an error of the
    sidebar, and only when it returns [None]. *)
Theorem geocode_address_outcome
    (float_of_string : string -> option Q) (E : env) (address : string)
    (p : page) :
  exists r evs,
    geocode_address float_of_string E address p
    = (Ret r,
       show_events evs
         (set_backend
            (log [Call_requests_get (nominatim_request address 1)] (backend p))
            p))
    /\ (evs = []
        \/ (r = None /\ exists e, evs = [Sidebar_error (geocode_error e)])).
Proof.
  rewrite geocode_address_run.
  destruct (fst (geocode_request float_of_string E address (backend p)))
    as [r|e].
  - exists r, []. split; [reflexivity | now left].
  - exists None, [Sidebar_error (geocode_error e)].
    split; [reflexivity | right; split; [reflexivity | now exists e]].
Qed.

Lemma geocode_request_first fos E address w resp c rest :
  requests_get E (nominatim_request address 1) = Ret resp ->
  raise_for_status resp = Ret tt ->
  body resp = Ret (JArr (c :: rest)) ->
  fst (geocode_request fos E address w)
  = rbind (location_of fos address c) (fun s => Ret (Some s)).
Proof.
  intros Hget Hst Hbody.
  unfold geocode_request, bind, lift, emit, ret. rewrite Hget, Hst, Hbody.
  cbn [truthy py_len item0].
  replace (0 <? Z.of_nat (length (c :: rest))) with true
    by (symmetry; apply Z.ltb_lt; cbn [length]; lia).
  now destruct (location_of fos address c).
Qed.

(** X10.  When the lookup answers a non-empty list, [geocode_address] looks
    at its first candidate only: it returns the location built from it, or
    [None] with the error of the exception that building it raised; the
    candidates after the first change nothing, malformed or not. *)
Theorem geocode_address_first_candidate
    (float_of_string : string -> option Q) (E : env) (address : string)
    (p : page) (resp : response) (c : json) (rest : list json) :
  requests_get E (nominatim_request address 1) = Ret resp ->
  raise_for_status resp = Ret tt ->
  body resp = Ret (JArr (c :: rest)) ->
  geocode_address float_of_string E address p
  = match location_of float_of_string address c with
    | Ret s =>
        (Ret (Some s),
         set_backend
           (log [Call_requests_get (nominatim_request address 1)] (backend p)) p)
    | Exc e =>
        (Ret None,
         show_events [Sidebar_error (geocode_error e)]
           (set_backend
              (log [Call_requests_get (nominatim_request address 1)]
                 (backend p)) p))
    end.
Proof.
  intros Hget Hst Hbody. rewrite geocode_address_run.
  rewrite (geocode_request_first _ _ _ _ _ _ _ Hget Hst Hbody).
  now destruct (location_of float_of_string address c).
Qed.

(** The response that makes the suggestions empty gives a location here. *)
Lemma geocode_address_first_candidate_witness :
  geocode_address decimal
    (answering (Ret (ok_response (JArr [paris; orleans_without_lon]))))
    "Paris" first_page
  = (Ret (Some {| display_name := JStr "Paris, France";
                  lat := 48.8588897; lon := 2.3200410 |}),
     set_backend
       (log [Call_requests_get (nominatim_request "Paris" 1)] process_start)
       first_page).
Proof.
  apply (geocode_address_first_candidate decimal
           (answering (Ret (ok_response (JArr [paris; orleans_without_lon]))))
           "Paris" first_page
           (ok_response (JArr [paris; orleans_without_lon]))
           paris [orleans_without_lon]);
    reflexivity.
Defined.

Lemma lookup_error_geocode_error e :
  lookup_error (Some e) = [Sidebar_error (geocode_error e)].
Proof. now destruct e. Qed.

(** X11.  When the single-result lookup ends without a candidate,
    [geocode_address] returns [None]: after a timeout it shows the timeout
    text; after any other exception of requests, an HTTP error status (400
    like the others) and a body that is no JSON included, the connection
    error; after a [KeyError] or [ValueError], as for an answer that is a
    JSON object, "Format de réponse inattendu"; after anything else the
    unexpected error.  After an empty answer it shows nothing. *)
Theorem geocode_address_without_candidate
    (float_of_string : string -> option Q) (E : env) (address : string)
    (p : page) (o : option exn) :
  lookup_ends E (nominatim_request address 1) o ->
  geocode_address float_of_string E address p
  = (Ret None,
     show_events (lookup_error o)
       (set_backend
          (log [Call_requests_get (nominatim_request address 1)] (backend p))
          p)).
Proof.
  intros H. rewrite geocode_address_run.
  assert (Hr : fst (geocode_request float_of_string E address (backend p))
               = match o with Some e => Exc e | None => Ret None end).
  { unfold geocode_request, bind, lift, emit, ret.
    destruct H as [e Hget | resp Hget Hst | resp e Hget Hst Hbody
                  | resp kv items Hget Hst Hbody | resp data Hget Hst Hbody Ht];
      rewrite Hget; try reflexivity.
    - now rewrite raise_for_status_error.
    - now rewrite Hst, Hbody.
    - rewrite Hst, Hbody. cbn [truthy py_len].
      replace (0 <? Z.of_nat (length (kv :: items))) with true
        by (symmetry; apply Z.ltb_lt; cbn [length]; lia).
      reflexivity.
    - now rewrite Hst, Hbody, Ht. }
  rewrite Hr. destruct o as [e|]; [|now destruct p].
  now rewrite lookup_error_geocode_error.
Qed.

(** The service answering 400. *)
Lemma geocode_address_without_candidate_witness :
  geocode_address decimal
    (answering (Ret {| status := 400; body := Exc JSONDecodeError |}))
    "Paris" first_page
  = (Ret None,
     show_events [Sidebar_error (Erreur_connexion_adresse (HTTPError 400))]
       (set_backend
          (log [Call_requests_get (nominatim_request "Paris" 1)] process_start)
          first_page)).
Proof.
  apply (geocode_address_without_candidate decimal
           (answering (Ret {| status := 400; body := Exc JSONDecodeError |}))
           "Paris" first_page (Some (HTTPError 400))).
  apply (ends_error_status _ _ {| status := 400; body := Exc JSONDecodeError |});
    [reflexivity | cbn; lia].
Defined.

Lemma suggestion_of_location_of fos address c s :
  suggestion_of fos c = Ret s ->
  exists g,
    location_of fos address c = Ret g
    /\ lat g = lat s /\ lon g = lon s
    /\ (display_name g = display_name s
        \/ (display_name s = JStr "" /\ display_name g = JStr address)).
Proof.
  unfold suggestion_of, location_of.
  destruct c as [| | | | |items]; try discriminate.
  cbn [dict_get subscript]. unfold rbind.
  destruct (lookup "lat" items) as [la|]; [|intros H; discriminate H].
  destruct (py_float fos la) as [a|] eqn:Hla; [|intros H; discriminate H].
  destruct (lookup "lon" items) as [lo|]; [|intros H; discriminate H].
  destruct (py_float fos lo) as [b|] eqn:Hlo; [|intros H; discriminate H].
  intros H. injection H as <-. eexists. split; [reflexivity|]. cbn.
  repeat split. destruct (lookup "display_name" items); auto.
Qed.

Lemma append_suggestions_prefix fos results : forall acc l,
  append_suggestions fos results acc = Ret l -> exists l', l = (acc ++ l')%list.
Proof.
  induction results as [|c results IH]; intros acc l H; cbn in H.
  - injection H as <-. exists []. now rewrite app_nil_r.
  - destruct (suggestion_of fos c) as [s|]; [|discriminate]. cbn in H.
    destruct (IH _ _ H) as [l' ->]. exists (s :: l'). now rewrite <- app_assoc.
Qed.

(** X12.  The two lookups agree.  When [search_address_suggestions] has
    returned a non-empty list for a response whose first candidate is [c],
    and the single-result lookup of an address is answered a list that
    starts with the same candidate, [geocode_address] returns a location
    with the latitude and longitude of the first suggestion, and with its
    name, unless the candidate has none: then the suggestion is named [""]
    and the location by the address asked. *)
Theorem geocode_address_agrees_with_first_suggestion
    (float_of_string : string -> option Q) (E : env) (query address : string)
    (limit : Z) (w : world) (p : page) (resp resp1 : response) (c : json)
    (rest rest1 : list json) (s : suggestion) (l : list suggestion) :
  requests_get E (nominatim_request query limit) = Ret resp ->
  body resp = Ret (JArr (c :: rest)) ->
  fst (search_address_suggestions float_of_string E query limit w)
  = Ret (s :: l) ->
  requests_get E (nominatim_request address 1) = Ret resp1 ->
  raise_for_status resp1 = Ret tt ->
  body resp1 = Ret (JArr (c :: rest1)) ->
  exists g,
    fst (geocode_address float_of_string E address p) = Ret (Some g)
    /\ lat g = lat s /\ lon g = lon s
    /\ (display_name g = display_name s
        \/ (display_name s = JStr "" /\ display_name g = JStr address)).
Proof.
  intros Hget Hbody Hsearch Hget1 Hst1 Hbody1.
  assert (Hc : suggestion_of float_of_string c = Ret s).
  { revert Hsearch. unfold search_address_suggestions.
    destruct ((query =? "")%string || (Z.of_nat (str_len query) <? 2));
      [discriminate|].
    unfold try_except, bind, lift, emit. rewrite Hget.
    destruct (raise_for_status resp) as [[]|e]; [|destruct e; cbn; discriminate].
    rewrite Hbody. cbn [truthy py_len py_iter ret].
    replace (0 <? Z.of_nat (length (c :: rest))) with true
      by (symmetry; apply Z.ltb_lt; cbn [length]; lia).
    cbn [append_suggestions].
    destruct (suggestion_of float_of_string c) as [s0|e]; [|destruct e; cbn; discriminate].
    cbn [rbind app].
    destruct (append_suggestions float_of_string rest [s0]) as [l0|e] eqn:Ha;
      cbn; rewrite Ha; [|destruct e; cbn; discriminate].
    destruct (append_suggestions_prefix _ _ _ _ Ha) as [l' ->].
    cbn. intros H. now injection H as -> _. }
  destruct (suggestion_of_location_of float_of_string address c s Hc)
    as (g & Hg & Hlat & Hlon & Hname).
  exists g. split; [|now repeat split].
  rewrite geocode_address_run.
  rewrite (geocode_request_first _ _ _ _ _ _ _ Hget1 Hst1 Hbody1), Hg.
  reflexivity.
Qed.

(** Paris suggested first, then looked up alone. *)
Lemma geocode_address_agrees_with_first_suggestion_witness :
  exists g,
    fst (geocode_address decimal
           (answering (Ret (ok_response (JArr [paris; paris])))) "Paris"
           first_page) = Ret (Some g)
    /\ lat g = 48.8588897%Q /\ lon g = 2.3200410%Q
    /\ (display_name g = JStr "Paris, France"
        \/ (JStr "Paris, France" = JStr "" /\ display_name g = JStr "Paris")).
Proof.
  apply (geocode_address_agrees_with_first_suggestion decimal
           (answering (Ret (ok_response (JArr [paris; paris])))) "Par" "Paris"
           10 process_start first_page
           (ok_response (JArr [paris; paris]))
           (ok_response (JArr [paris; paris])) paris [paris] [paris]
           {| display_name := JStr "Paris, France";
              lat := 48.8588897; lon := 2.3200410 |}
           [ {| display_name := JStr "Paris, France";
                lat := 48.8588897; lon := 2.3200410 |} ]);
    reflexivity.
Defined.

Lemma search_address_suggestions_returns fos E query limit :
  returns (search_address_suggestions fos E query limit).
Proof.
  unfold search_address_suggestions.
  destruct ((query =? "")%string || (Z.of_nat (str_len query) <? 2)).
  - intros w. now exists [], w.
  - apply returns_try_except. intros e w. exists [], w. now destruct e.
Qed.

(** X13.  The search button with a non-empty address.  When
    [geocode_address] finds no location, the coordinates of the session stay
    as they were, "Adresse non trouvée" is shown and nothing is raised.
    When it finds one, the coordinates become its latitude and longitude,
    and then the name is cut to 50 characters for the text shown: that
    raises [TypeError] out of the script when the name is neither a string
    nor a list.  Query and suggestions are never touched. *)
Theorem search_button_coordinates
    (float_of_string : string -> option Q) (E : env) (address_input : string)
    (p : page) :
  address_input <> "" ->
  exists r p',
    search_button float_of_string E address_input p = (r, p')
    /\ address_query p' = address_query p
    /\ address_suggestions p' = address_suggestions p
    /\ match fst (geocode_address float_of_string E address_input p) with
       | Ret (Some g) =>
           latitude p' = lat g /\ longitude p' = lon g
           /\ match slice_to 50 (display_name g) with
              | Ret name =>
                  r = Ret tt
                  /\ exists before,
                       shown p'
                       = Sidebar_success (Localisation_trouvee name) :: before
              | Exc e => r = Exc e /\ e = TypeError
              end
       | _ =>
           r = Ret tt
           /\ latitude p' = latitude p /\ longitude p' = longitude p
           /\ exists before,
                shown p' = Sidebar_error Adresse_non_trouvee :: before
       end.
Proof.
  intros Hne. unfold search_button.
  replace (negb (address_input =? "")%string) with true
    by (symmetry; apply negb_true_iff, String.eqb_neq, Hne).
  unfold pbind. rewrite geocode_address_run.
  destruct (fst (geocode_request float_of_string E address_input (backend p)))
    as [[g|]|e]; cbn [fst].
  - unfold pmodify, plift, show.
    destruct (slice_to 50 (display_name g)) as [name|e] eqn:Hs.
    + eexists _, _. split; [reflexivity|]. cbn. repeat split. eauto.
    + eexists _, _. split; [reflexivity|]. cbn. repeat split.
      destruct (display_name g); cbn in Hs; congruence.
  - eexists _, _. split; [reflexivity|]. cbn. repeat split. eauto.
  - eexists _, _. split; [reflexivity|]. cbn. repeat split. eauto.
Qed.

(** Paris found. *)
Lemma search_button_coordinates_witness :
  exists r p',
    search_button decimal (answering (Ret (ok_response (JArr [paris]))))
      "Paris" first_page = (r, p')
    /\ address_query p' = ""
    /\ address_suggestions p' = []
    /\ latitude p' = 48.8588897%Q /\ longitude p' = 2.3200410%Q
    /\ r = Ret tt
    /\ exists before,
         shown p'
         = Sidebar_success (Localisation_trouvee (JStr "Paris, France"))
           :: before.
Proof.
  apply (search_button_coordinates decimal
           (answering (Ret (ok_response (JArr [paris])))) "Paris" first_page).
  discriminate.
Defined.

(** X14.  The suggestions of the text field (lines 243-252).  Whatever the
    field holds, the block raises nothing, leaves the coordinates alone and
    ends with [address_query] equal to the text.  With fewer than two
    characters it empties the suggestions and sends nothing.  With two
    characters or more it does nothing when the text is the query of the
    session, and else sends one request and keeps what
    [search_address_suggestions] returned.  Run again on the same text it
    changes nothing and sends nothing, whatever the network would answer:
    one request for each new text, none for a rerun. *)
Theorem refresh_suggestions_once
    (float_of_string : string -> option Q) (E : env) (address_input : string)
    (p : page) :
  exists p',
    refresh_suggestions float_of_string E address_input p = (Ret tt, p')
    /\ address_query p' = address_input
    /\ latitude p' = latitude p /\ longitude p' = longitude p
    /\ shown p' = shown p
    /\ ((str_len address_input < 2)%nat ->
        address_suggestions p' = [] /\ backend p' = backend p)
    /\ ((2 <= str_len address_input)%nat ->
        if (address_input =? address_query p)%string then p' = p
        else
          backend p'
          = log [Call_requests_get (nominatim_request address_input 10)]
              (backend p)
          /\ fst (search_address_suggestions float_of_string E address_input
                    10 (backend p))
             = Ret (address_suggestions p'))
    /\ (forall E',
          refresh_suggestions float_of_string E' address_input p'
          = (Ret tt, p')).
Proof.
  unfold refresh_suggestions.
  destruct (negb (address_input =? "")%string
            && (2 <=? Z.of_nat (str_len address_input))) eqn:Hlong.
  - apply andb_prop in Hlong as [_ Hlen]. apply Z.leb_le in Hlen.
    unfold pbind at 1. unfold pread at 1.
    destruct (address_input =? address_query p)%string eqn:Hq; cbn [negb].
    + apply String.eqb_eq in Hq. exists p.
      repeat split; auto; try (intros; lia).
      intros E'. unfold pbind, pread. rewrite <- Hq.
      now rewrite String.eqb_refl.
    + unfold pbind, call, pmodify.
      destruct (search_address_suggestions_run float_of_string E
                  address_input 10 (backend p) ltac:(lia)) as (l & -> & _).
      eexists. split; [reflexivity|]. cbn. repeat split; try (intros; lia).
      intros E'. unfold pread. cbn. now rewrite String.eqb_refl.
  - assert (Hshort : (Z.of_nat (str_len address_input) <? 2) = true).
    { apply andb_false_iff in Hlong as [H | H].
      - apply negb_false_iff, String.eqb_eq in H. now subst.
      - apply Z.ltb_lt. now apply Z.leb_gt in H. }
    rewrite Hshort. unfold pbind, pmodify.
    eexists. split; [reflexivity|]. cbn. repeat split.
    apply Z.ltb_lt in Hshort. intros; lia.
Qed.

(* ================================================================== *)
(** ** The select box of the suggestions *)

Lemma string_of_uint_digits d : all_digits (NilEmpty.string_of_uint d) = true.
Proof. induction d; cbn; auto. Qed.

Lemma digits_before_dot a : forall b x y,
  all_digits a = true -> all_digits b = true ->
  (a ++ String "." x)%string = (b ++ String "." y)%string -> a = b.
Proof.
  induction a as [|c a IH]; intros [|c' b] x y Ha Hb H; cbn in *.
  - reflexivity.
  - injection H as <- _. discriminate.
  - injection H as -> _. discriminate.
  - injection H as <- H.
    destruct (digit_value c); [|discriminate].
    now rewrite (IH b x y Ha Hb H).
Qed.

Lemma decimal_of_nat_inj n m : decimal_of_nat n = decimal_of_nat m -> n = m.
Proof.
  unfold decimal_of_nat. intros H.
  apply Unsigned.to_uint_inj.
  pose proof (NilEmpty.usu (Nat.to_uint n)) as Hn.
  rewrite H, NilEmpty.usu in Hn. now injection Hn.
Qed.

Lemma label_inj repr i j (s t : suggestion) :
  (decimal_of_nat i ++ ". " ++ format_value repr (display_name s))%string
  = (decimal_of_nat j ++ ". " ++ format_value repr (display_name t))%string ->
  i = j.
Proof.
  intros H. apply decimal_of_nat_inj.
  apply (digits_before_dot _ _ _ _ (string_of_uint_digits _)
           (string_of_uint_digits _) H).
Qed.

Lemma label_not_placeholder repr i (s : suggestion) :
  ((decimal_of_nat i ++ ". " ++ format_value repr (display_name s))
   =? placeholder)%string = false.
Proof.
  apply String.eqb_neq. intros H.
  pose proof (string_of_uint_digits (Nat.to_uint i)) as Hd.
  unfold decimal_of_nat in H.
  destruct (NilEmpty.string_of_uint (Nat.to_uint i)) as [|c d]; cbn in H, Hd.
  - discriminate.
  - injection H as -> _. discriminate.
Qed.

Lemma label_not_empty repr i (s : suggestion) :
  ((decimal_of_nat i ++ ". " ++ format_value repr (display_name s)) =? "")%string
  = false.
Proof.
  apply String.eqb_neq.
  destruct (decimal_of_nat i); discriminate.
Qed.

Lemma nth_error_numbered repr suggestions : forall idx k sug,
  nth_error suggestions k = Some sug ->
  nth_error (numbered repr idx suggestions) k
  = Some (decimal_of_nat (idx + k + 1) ++ ". "
          ++ format_value repr (display_name sug))%string.
Proof.
  induction suggestions as [|a l IH]; intros idx [|k] sug H; try discriminate.
  - injection H as ->. cbn. now rewrite Nat.add_0_r.
  - cbn in H. cbn. rewrite (IH (S idx) k sug H).
    now replace (S idx + k)%nat with (idx + S k)%nat by lia.
Qed.

Lemma list_index_numbered repr suggestions : forall idx k sug,
  nth_error suggestions k = Some sug ->
  list_index (decimal_of_nat (idx + k + 1) ++ ". "
              ++ format_value repr (display_name sug))%string
    (numbered repr idx suggestions)
  = Ret (Z.of_nat k).
Proof.
  induction suggestions as [|a l IH]; intros idx [|k] sug H; try discriminate.
  - injection H as ->. cbn [numbered list_index].
    now rewrite Nat.add_0_r, String.eqb_refl.
  - cbn in H. cbn [numbered list_index].
    destruct (String.eqb_spec
                (decimal_of_nat (idx + 1) ++ ". "
                 ++ format_value repr (display_name a))
                (decimal_of_nat (idx + S k + 1) ++ ". "
                 ++ format_value repr (display_name sug))) as [Heq | _].
    + apply label_inj in Heq. lia.
    + replace (idx + S k)%nat with (S idx + k)%nat by lia.
      rewrite (IH (S idx) k sug H). cbn. f_equal. lia.
Qed.

(** X15.  The select box decodes the label it was given.  When the user
    holds the box at position [k + 1], the entry after the placeholder that
    stands for the [k]-th suggestion, the coordinates of the session become
    the latitude and longitude of that suggestion, also when another
    suggestion has the same name, and its name cut to 60 characters is
    shown; when the name is neither a string nor a list the cut raises
    [TypeError] out of the script, after the coordinates were set.  Held at
    the placeholder, the box changes nothing. *)
Theorem suggestion_box_selects
    (repr : json -> string) (p : page) (k : nat) (sug : suggestion) :
  nth_error (address_suggestions p) k = Some sug ->
  suggestion_box repr (S k) p
  = match slice_to 60 (display_name sug) with
    | Ret name =>
        (Ret tt,
         show_event (Sidebar_success (Localisation_selectionnee name))
           (set_coordinates (lat sug) (lon sug) p))
    | Exc e => (Exc e, set_coordinates (lat sug) (lon sug) p)
    end
  /\ suggestion_box repr 0 p = (Ret tt, p).
Proof.
  intros H.
  assert (Hlen : (k < length (address_suggestions p))%nat)
    by (apply nth_error_Some; congruence).
  unfold suggestion_box, pbind, pread.
  destruct (address_suggestions p) as [|s0 l] eqn:Hl; [cbn in Hlen; lia|].
  split.
  2:{ cbn [suggestion_options nth_error]. unfold select_suggestion, pbind, pread.
      rewrite String.eqb_refl. now rewrite andb_false_r. }
  cbn [suggestion_options nth_error].
  rewrite (nth_error_numbered repr (s0 :: l) 0 k sug H).
  unfold select_suggestion, pbind, pread. rewrite Hl.
  rewrite label_not_empty, label_not_placeholder. cbn [negb andb].
  unfold ptry_except, pbind, plift. cbn [suggestion_options list_index].
  rewrite String.eqb_sym, label_not_placeholder.
  rewrite (list_index_numbered repr (s0 :: l) 0 k sug H). cbn [rbind].
  replace (Z.of_nat k + 1 - 1) with (Z.of_nat k) by lia.
  replace ((0 <=? Z.of_nat k) && (Z.of_nat k <? Z.of_nat (length (s0 :: l))))
    with true
    by (symmetry; apply andb_true_intro; split;
        [apply Z.leb_le | apply Z.ltb_lt]; lia).
  rewrite Nat2Z.id, H. unfold pmodify, show.
  destruct (display_name sug); reflexivity.
Qed.

(** The third suggestion, named like the first. *)
Lemma suggestion_box_selects_witness :
  suggestion_box (fun _ => "") 3 three_suggestions
  = (Ret tt,
     show_event
       (Sidebar_success (Localisation_selectionnee (JStr "Saint-Denis")))
       (set_coordinates (-20.9) 55.5 three_suggestions))
  /\ suggestion_box (fun _ => "") 0 three_suggestions
     = (Ret tt, three_suggestions).
Proof.
  apply (suggestion_box_selects (fun _ => "") three_suggestions 2
           {| display_name := JStr "Saint-Denis"; lat := -20.9; lon := 55.5 |}).
  reflexivity.
Defined.

(* ================================================================== *)
(** ** The period *)

Lemma days_in_month_bounds y m : 28 <= days_in_month y m <= 31.
Proof.
  unfold days_in_month.
  destruct (m =? 2); [destruct (is_leap y); lia|].
  destruct ((m =? 4) || (m =? 6) || (m =? 9) || (m =? 11)); lia.
Qed.

Lemma valid_date_bounds d :
  valid_date d = true ->
  1 <= year d <= 9999 /\ 1 <= month d <= 12
  /\ 1 <= day d <= days_in_month (year d) (month d).
Proof.
  unfold valid_date. intros H.
  repeat (apply andb_prop in H as [H ?]).
  repeat match goal with
         | H : (_ <=? _) = true |- _ => apply Z.leb_le in H
         end.
  lia.
Qed.

Lemma valid_date_intro d :
  1 <= year d <= 9999 -> 1 <= month d <= 12 ->
  1 <= day d <= days_in_month (year d) (month d) ->
  valid_date d = true.
Proof.
  intros Hy Hm Hd. unfold valid_date.
  repeat (apply andb_true_intro; split); apply Z.leb_le; lia.
Qed.

Lemma date_lt_intro a b :
  year a < year b
  \/ (year a = year b
      /\ (month a < month b \/ (month a = month b /\ day a < day b))) ->
  date_lt a b = true.
Proof.
  unfold date_lt. intros [H | (Hy & [H | (Hm & H)])].
  - apply Z.ltb_lt in H. now rewrite H.
  - apply Z.eqb_eq in Hy. apply Z.ltb_lt in H. rewrite Hy, H.
    now rewrite orb_true_r.
  - apply Z.eqb_eq in Hy, Hm. apply Z.ltb_lt in H. rewrite Hy, Hm, H.
    cbn. now rewrite !orb_true_r.
Qed.

Lemma minus_one_day_before d :
  valid_date d = true ->
  d <> {| year := 1; month := 1; day := 1 |} ->
  exists d',
    minus_one_day d = Ret d' /\ valid_date d' = true /\ date_lt d' d = true.
Proof.
  intros Hv Hmin. destruct (valid_date_bounds d Hv) as (Hy & Hm & Hd).
  unfold minus_one_day.
  destruct (Z.ltb_spec 1 (day d)) as [H1 | H1].
  { eexists. split; [reflexivity|]. split.
    - apply valid_date_intro; cbn; lia.
    - apply date_lt_intro; cbn; lia. }
  destruct (Z.ltb_spec 1 (month d)) as [H2 | H2].
  { eexists. split; [reflexivity|].
    pose proof (days_in_month_bounds (year d) (month d - 1)). split.
    - apply valid_date_intro; cbn; lia.
    - apply date_lt_intro; cbn; lia. }
  destruct (Z.ltb_spec 1 (year d)) as [H3 | H3].
  { eexists. split; [reflexivity|]. split.
    - apply valid_date_intro; cbn; lia.
    - apply date_lt_intro; cbn; lia. }
  exfalso. apply Hmin. destruct d as [y m dd]. cbn in *. f_equal; lia.
Qed.

(** X16.  After the check of lines 342-344 the start of the period is a day
    strictly before its end, whatever start the user picked: a start before
    the end is kept and nothing is shown; any other start is replaced by the
    day before the end, with the warning.  (The end is a day of the
    calendar other than 0001-01-01, before which there is none.) *)
Theorem check_dates_orders
    (date_start date_end : date) (p : page) :
  valid_date date_start = true ->
  valid_date date_end = true ->
  date_end <> {| year := 1; month := 1; day := 1 |} ->
  exists d,
    check_dates date_start date_end p
    = (Ret d,
       if date_lt date_start date_end then p
       else show_event (Sidebar_warning Date_debut_anterieure) p)
    /\ valid_date d = true
    /\ date_lt d date_end = true
    /\ (date_lt date_start date_end = true -> d = date_start)
    /\ (date_lt date_start date_end = false ->
        minus_one_day date_end = Ret d).
Proof.
  intros Hs He Hmin. unfold check_dates.
  destruct (date_lt date_start date_end) eqn:Hlt; cbn [negb].
  - exists date_start. repeat split; auto. discriminate.
  - destruct (minus_one_day_before date_end He Hmin) as (d' & Hd & Hv & Hb).
    exists d'. unfold pbind, show, plift. rewrite Hd.
    repeat split; auto. discriminate.
Qed.

(** The same day picked twice. *)
Lemma check_dates_orders_witness :
  exists d,
    check_dates {| year := 2024; month := 3; day := 1 |}
      {| year := 2024; month := 3; day := 1 |} first_page
    = (Ret d, show_event (Sidebar_warning Date_debut_anterieure) first_page)
    /\ valid_date d = true
    /\ date_lt d {| year := 2024; month := 3; day := 1 |} = true
    /\ (false = true -> d = {| year := 2024; month := 3; day := 1 |})
    /\ (false = false ->
        Ret {| year := 2024; month := 2; day := 29 |} = Ret d).
Proof.
  apply (check_dates_orders {| year := 2024; month := 3; day := 1 |}
           {| year := 2024; month := 3; day := 1 |} first_page);
    try reflexivity.
  discriminate.
Defined.

(* ================================================================== *)
(** ** The valve block *)

Lemma get_firebase_app_keeps E w :
  exists r w',
    get_firebase_app E w = (Ret r, w')
    /\ updates w' = updates w /\ vanne_etat w' = vanne_etat w.
Proof.
  destruct (get_firebase_app_cases E w) as (r & w' & H & Hcase).
  exists r, w'. split; [exact H|].
  destruct Hcase as [a Hc | Hc Hf | a Hc Hf Hi Ha | Hc Hf Hi Ha Hcert Hinit
                    | e evs Hc Hf Hfail]; try (split; reflexivity).
  destruct Hfail; split; reflexivity.
Qed.

Lemma firebase_get_vanne_etat_keeps E w :
  exists v w',
    firebase_get_vanne_etat E w = (Ret v, w')
    /\ updates w' = updates w /\ vanne_etat w' = vanne_etat w.
Proof.
  destruct (get_firebase_app_keeps E w) as (r & w1 & Hg & Hu & Hv).
  unfold firebase_get_vanne_etat, try_except, bind. rewrite Hg.
  destruct r as [a|]; [|now exists JNull, w1].
  unfold or_raise, emit, lift, ret, raise.
  destruct (import_db E); [now eexists _, _|].
  destruct (db_reference E "/vanne/etat");
    [eexists _, _; split; [reflexivity|]; now split|].
  destruct (ref_get E "/vanne/etat");
    eexists _, _; (split; [reflexivity|]); now split.
Qed.

Lemma firebase_set_vanne_etat_keeps E etat w :
  exists b w',
    firebase_set_vanne_etat E etat w = (Ret b, w')
    /\ vanne_etat w' = vanne_etat w
    /\ (updates w' <= S (updates w))%nat
    /\ (b = true -> updates w' = S (updates w)).
Proof.
  destruct (get_firebase_app_keeps E w) as (r & w1 & Hg & Hu & Hv).
  unfold firebase_set_vanne_etat, try_except, bind. rewrite Hg.
  destruct r as [a|].
  2:{ exists false, w1. cbn. rewrite Hu, Hv.
      repeat split; try lia; intros H; discriminate H. }
  unfold or_raise, emit, lift, ret, raise.
  destruct (import_db E).
  { exists false, w1. cbn. rewrite Hu, Hv.
    repeat split; try lia; intros H; discriminate H. }
  destruct (db_reference E "/vanne").
  { eexists false, _. split; [reflexivity|]. unfold updates in *. cbn.
    rewrite Hu, Hv. repeat split; try lia; intros H; discriminate H. }
  destruct (ref_update E "/vanne" (JObj [("etat", JBool etat)])).
  - eexists false, _. split; [reflexivity|]. unfold updates in *. cbn.
    rewrite Hu, Hv. repeat split; try lia; intros H; discriminate H.
  - eexists true, _. split; [reflexivity|]. unfold updates in *. cbn.
    rewrite Hu, Hv. repeat split; lia.
Qed.

Lemma dashboard_vanne_keeps E w :
  exists r w',
    dashboard_vanne E w = (Ret r, w')
    /\ updates w' = updates w
    /\ match r with
       | Some etat_actuel =>
           vanne_etat w' = Some etat_actuel /\ etat_actuel <> JNull
           /\ exists a, _firebase_app w' = Some a
       | None => vanne_etat w' = vanne_etat w
       end.
Proof.
  destruct (get_firebase_app_keeps E w) as (r & w1 & Hg & Hu & Hv).
  unfold dashboard_vanne, bind. rewrite Hg.
  destruct r as [a|]; [|now eexists _, _].
  pose proof (get_firebase_app_memo E w a w1 Hg) as Hc.
  destruct (firebase_get_vanne_etat_keeps E w1) as (v & w2 & Hget & Hu2 & _).
  destruct (firebase_get_vanne_etat_run E w1) as (v' & evs & Hrun & _).
  rewrite (get_firebase_app_cached E w1 a Hc) in Hrun. cbn [snd] in Hrun.
  rewrite Hget in Hrun. injection Hrun as _ Hw2.
  rewrite Hget.
  eexists _, _. split; [reflexivity|]. unfold updates in *. cbn.
  split; [congruence|].
  split; [reflexivity|]. split; [now destruct v|].
  exists a. now rewrite Hw2.
Qed.

(** The write once the client is cached: only the store decides. *)
Lemma firebase_set_vanne_etat_cached E etat w a :
  _firebase_app w = Some a ->
  exists w',
    firebase_set_vanne_etat E etat w = (Ret (write_goes_through E etat), w')
    /\ vanne_etat w' = vanne_etat w
    /\ updates w'
       = if update_called E then S (updates w) else updates w.
Proof.
  intros Hc.
  unfold firebase_set_vanne_etat, try_except, bind, write_goes_through,
    update_called.
  rewrite (get_firebase_app_cached E w a Hc).
  unfold or_raise, emit, lift, ret, raise.
  destruct (import_db E); [now eexists|].
  destruct (db_reference E "/vanne"); [now eexists|].
  destruct (ref_update E "/vanne" (JObj [("etat", JBool etat)]));
    now eexists.
Qed.

(** X17.  The valve block (lines 489-519), for whatever [st.toggle]
    returns.  It raises nothing.  When the block is not drawn (no client)
    nothing is written and nothing shown by these lines.  When the toggle
    agrees with the state read ([False] when the read failed), [ref.update]
    is not called, the session keeps that state and "État actuel" is shown.
    When it differs, the store alone decides: [ref.update] is called once
    if the store is reached and not at all otherwise; if the update goes
    through the session holds the toggle and "État envoyé" is shown, and if
    the store is not reached or the update raises the session keeps the
    state read and "Impossible d'écrire dans Firebase" is shown. *)
Theorem vanne_block_outcome (E : env) (nouveau_etat : bool) (p : page) :
  exists p',
    vanne_block E nouveau_etat p = (Ret tt, p')
    /\ match fst (dashboard_vanne E (backend p)) with
       | Ret (Some etat_actuel) =>
           if bool_ne nouveau_etat etat_actuel
           then
             updates (backend p')
             = (if update_called E then S (updates (backend p))
                else updates (backend p))
             /\ if write_goes_through E nouveau_etat
                then
                  vanne_etat (backend p') = Some (JBool nouveau_etat)
                  /\ shown p'
                     = Page_success (Etat_envoye nouveau_etat) :: shown p
                else
                  vanne_etat (backend p') = Some etat_actuel
                  /\ shown p' = Page_error Ecriture_impossible :: shown p
           else
             updates (backend p') = updates (backend p)
             /\ vanne_etat (backend p') = Some etat_actuel
             /\ shown p'
                = Page_info (Etat_synchronise (truthy etat_actuel)) :: shown p
       | _ =>
           updates (backend p') = updates (backend p) /\ shown p' = shown p
       end.
Proof.
  destruct (dashboard_vanne_keeps E (backend p)) as (r & w1 & Hd & Hu & Hr).
  unfold vanne_block, pbind, call. rewrite Hd. cbn [fst].
  destruct r as [etat_actuel|];
    [|eexists; split; [reflexivity|]; now split].
  destruct Hr as (Hv & _ & a & Hc). unfold vanne_toggle.
  destruct (bool_ne nouveau_etat etat_actuel).
  - unfold pbind, call. cbn [backend set_backend].
    destruct (firebase_set_vanne_etat_cached E nouveau_etat w1 a Hc)
      as (w2 & -> & Hv2 & Hup).
    rewrite Hu in Hup.
    destruct (write_goes_through E nouveau_etat).
    + eexists. split; [reflexivity|]. cbn.
      split; [exact Hup|]. now split.
    + eexists. split; [reflexivity|]. cbn.
      split; [exact Hup|]. split; [congruence|reflexivity].
  - eexists. split; [reflexivity|]. unfold updates in *. cbn.
    now repeat split.
Qed.

(** The toggle moved to ON over a store that holds OFF: written once when
    the update goes through, and an error when it raises. *)
Example vanne_block_written :
  (exists p',
      vanne_block (store true None None (Ret (JBool false)) None) true first_page
      = (Ret tt, p')
      /\ updates (backend p') = 1%nat
      /\ vanne_etat (backend p') = Some (JBool true)
      /\ shown p' = [Page_success (Etat_envoye true)])
  /\ (exists p',
        vanne_block
          (store true None None (Ret (JBool false)) (Some ConnectionError))
          true first_page
        = (Ret tt, p')
        /\ updates (backend p') = 1%nat
        /\ vanne_etat (backend p') = Some (JBool false)
        /\ shown p' = [Page_error Ecriture_impossible]).
Proof. split; eexists; repeat split; reflexivity. Qed.

(** A rerun after the client was made: the registry gives it back. *)
Lemma rerun_registered w :
  consistent w -> firebase_admin_apps w <> None ->
  firebase_admin_apps (rerun w) = Some 0%nat
  /\ _firebase_app (rerun w) = None.
Proof.
  unfold consistent. intros Hw Hne.
  destruct (firebase_admin_apps w) as [a|] eqn:Ha; [|contradiction].
  destruct Hw as (_ & -> & _). cbn. now rewrite Ha.
Qed.

(** X18.  After a rerun of the script the cache of lines 27-28 is empty
    again.  If the process has made a client before, whatever happened
    since, a call of [get_firebase_app] with the credential file in place
    and the import working returns that client: it asks the registry
    ([get_app]) and calls neither [Certificate] nor [initialize_app], so
    nothing is initialised a second time. *)
Theorem get_firebase_app_after_rerun
    (steps : list step) (E : env) :
  firebase_admin_apps (run steps process_start) <> None ->
  isfile_credentials E = true ->
  import_firebase_admin E = None ->
  get_firebase_app E (rerun (run steps process_start))
  = (Ret (Some 0%nat),
     set_firebase_app (Some 0%nat)
       (log [Call_get_app] (rerun (run steps process_start))))
  /\ apps_created (snd (get_firebase_app E (rerun (run steps process_start))))
     = 1%nat.
Proof.
  intros Hreg Hf Hi.
  pose proof (run_consistent steps process_start process_start_consistent)
    as Hw.
  destruct (rerun_registered _ Hw Hreg) as [Ha Hc].
  assert (Hone : apps_created (run steps process_start) = 1%nat).
  { unfold consistent in Hw.
    destruct (firebase_admin_apps (run steps process_start));
      [now destruct Hw | contradiction]. }
  assert (Hrun : get_firebase_app E (rerun (run steps process_start))
                 = (Ret (Some 0%nat),
                    set_firebase_app (Some 0%nat)
                      (log [Call_get_app] (rerun (run steps process_start))))).
  { unfold get_firebase_app, bind, read, try_except. rewrite Hc. cbn.
    rewrite Hf. cbn. rewrite Hi. cbn.
    change (firebase_admin_apps (run steps process_start))
      with (firebase_admin_apps (rerun (run steps process_start))).
    now rewrite Ha. }
  split; [exact Hrun|]. rewrite Hrun. exact Hone.
Qed.

(** The client made, the flag read, the script rerun. *)
Lemma get_firebase_app_after_rerun_witness :
  get_firebase_app (store true None None (Ret JNull) None)
    (rerun (run [Do_get_firebase_app (store true None None (Ret JNull) None);
                 Do_get_vanne_etat (store true None None (Ret JNull) None)]
              process_start))
  = (Ret (Some 0%nat),
     set_firebase_app (Some 0%nat)
       (log [Call_get_app]
          (rerun (run [Do_get_firebase_app
                         (store true None None (Ret JNull) None);
                       Do_get_vanne_etat
                         (store true None None (Ret JNull) None)]
                    process_start))))
  /\ apps_created
       (snd (get_firebase_app (store true None None (Ret JNull) None)
               (rerun (run [Do_get_firebase_app
                              (store true None None (Ret JNull) None);
                            Do_get_vanne_etat
                              (store true None None (Ret JNull) None)]
                         process_start))))
     = 1%nat.
Proof.
  apply (get_firebase_app_after_rerun
           [Do_get_firebase_app (store true None None (Ret JNull) None);
            Do_get_vanne_etat (store true None None (Ret JNull) None)]
           (store true None None (Ret JNull) None)).
  - discriminate.
  - reflexivity.
  - reflexivity.
Defined.

(* ================================================================== *)
(** ** Loading the data, in general *)

Lemma process_arrays_run parse other times air soil w :
  exists r evs,
    process_arrays parse other times air soil w = (r, log evs w)
    /\ (length evs <= 1)%nat /\ existsb is_request evs = false
    /\ (forall df, r = Ret (Some df) -> evs = [])
    /\ (forall e, r = Exc e -> evs = []).
Proof.
  unfold process_arrays, bind, lift, emit, ret.
  destruct (negb (truthy times) || negb (truthy air) || negb (truthy soil)).
  { eexists _, [_]. split; [reflexivity|]. cbn.
    repeat split; try lia; try (intros; discriminate). }
  destruct (pd_DataFrame parse other times air soil) as [d|e].
  2:{ exists (Exc e), []. rewrite log_nil. cbn. repeat split; auto. }
  destruct (empty (dropna d)).
  - eexists _, [_]. split; [reflexivity|]. cbn.
    repeat split; try lia; try (intros; discriminate).
  - eexists _, []. rewrite log_nil. cbn. repeat split; auto.
Qed.

Lemma process_meteo_data_run parse other api_data w :
  exists r evs,
    process_meteo_data parse other api_data w = (Ret r, log evs w)
    /\ (length evs <= 1)%nat /\ existsb is_request evs = false
    /\ (forall df, r = Some df -> evs = []).
Proof.
  assert (Hfail : forall e w0,
             exists r evs,
               process_error e w0 = (Ret r, log evs w0)
               /\ (length evs <= 1)%nat /\ existsb is_request evs = false
               /\ (forall df, r = Some df -> evs = [])).
  { intros e w0. exists None, [St_error (Erreur_traitement e)].
    split; [reflexivity|]. cbn. repeat split; try lia; try discriminate. }
  unfold process_meteo_data, try_except.
  destruct api_data as [|b|q|s|l|items];
    try (cbn; apply Hfail).
  { exists None, []. rewrite log_nil. cbn. repeat split; try lia; try discriminate. }
  unfold bind at 1. unfold lift at 1. cbn [dict_get].
  destruct (match lookup "hourly" items with Some v => v | None => JObj [] end)
    as [| | | | |hourly]; try (cbn; apply Hfail).
  unfold bind, lift. cbn [dict_get].
  destruct (process_arrays_run parse other
              (match lookup "time" hourly with Some v => v | None => JArr [] end)
              (match lookup "relative_humidity_2m" hourly with
               | Some v => v | None => JArr [] end)
              (match lookup "soil_moisture_0_to_1cm" hourly with
               | Some v => v | None => JArr [] end) w)
    as (r & evs & -> & Hlen & Hreq & Hsome & Hexc).
  destruct r as [r|e].
  - exists r, evs. repeat split; auto. intros df ->. now apply (Hsome df).
  - rewrite (Hexc e eq_refl). rewrite log_nil. apply Hfail.
Qed.

(** X19.  Loading the data (lines 479-481), whatever the outside answers
    and whatever pandas does: nothing is raised, exactly one request is
    sent, and at most one message is left on the page; a frame comes without
    any message, has at least one row and no null cell. *)
Theorem load_data_outcome
    (parse : list (option string) -> string -> option (option Z))
    (other : json -> json -> json -> res DataFrame)
    (E : env) (la lo : Q) (start_date end_date : date) (w : world) :
  exists r evs,
    load_data parse other E la lo start_date end_date w
    = (Ret r,
       log (evs ++ [Call_requests_get
                      (open_meteo_request la lo start_date end_date)]) w)
    /\ (length evs <= 1)%nat
    /\ existsb is_request evs = false
    /\ (forall df,
          r = Some df -> evs = [] /\ df <> [] /\ forallb notna df = true).
Proof.
  unfold load_data, bind.
  destruct (fetch_open_meteo_data_run E la lo start_date end_date w)
    as (v & evs & -> & Hlen & Hreq & Hv).
  assert (Hdec : v = JNull \/ v <> JNull)
    by (destruct v; [left | right ..]; congruence).
  destruct Hdec as [-> | Hnn].
  - rewrite process_meteo_data_none. exists None, evs.
    repeat split; auto; discriminate.
  - destruct (Hv Hnn) as (-> & _). rewrite app_nil_l.
    destruct (process_meteo_data_run parse other v
                (log [Call_requests_get
                        (open_meteo_request la lo start_date end_date)] w))
      as (r & evs' & Hp & Hlen' & Hreq' & Hsome).
    rewrite Hp, log_app. exists r, evs'.
    split; [reflexivity|]. split; [exact Hlen'|]. split; [exact Hreq'|].
    intros df ->. split; [now apply (Hsome df)|].
    destruct (process_meteo_data_some _ _ _ _ _ _ Hp) as (H1 & H2 & _).
    now split.
Qed.
